(** * Vidu video tool: input normalizer and provider client

    A shallow embedding of [src/tools/generateViduVideo.ts] (the input
    normalizer) and [src/lib/viduClient.ts] (the provider client), with the
    properties their specification states about them.

    JavaScript strings are sequences of UTF-16 code units, numbers are
    IEEE 754 binary64 values, and the two effects of the client (the
    outbound [fetch] and the [console.error] line) are recorded in an event
    trace. *)

From Stdlib Require Import List Bool NArith ZArith PArith Lia Ascii String.
From Stdlib Require Import Floats.SpecFloat DecimalString.
Import ListNotations.

Set Warnings "-register-all".

(** ** JavaScript strings *)

Module JsString.

(** A string is its list of UTF-16 code units. *)
Definition jsstring := list N.

(** An ASCII literal of the source as a [jsstring]. *)
Definition js (s : string) : jsstring :=
  List.map N_of_ascii (list_ascii_of_string s).

Definition eqb (a b : jsstring) : bool :=
  if list_eq_dec N.eq_dec a b then true else false.

(** Truthiness of a string: only the empty string is falsy. *)
Definition truthy (s : jsstring) : bool :=
  match s with [] => false | _ :: _ => true end.

Definition SPACE : N := 32%N.
Definition LF : N := 10%N.
Definition CR : N := 13%N.
Definition LINE_SEPARATOR : N := 0x2028%N.
Definition PARAGRAPH_SEPARATOR : N := 0x2029%N.

(** The code units matched by the regular expression class [\s] and
    stripped by [String.prototype.trim]: ECMAScript WhiteSpace (TAB, VT,
    FF, ZWNBSP and the space separators of Unicode) together with the
    LineTerminator code points. *)
Definition isWhiteSpace (c : N) : bool :=
  ((c =? 9) || (c =? 10) || (c =? 11) || (c =? 12) || (c =? 13)
   || (c =? 32) || (c =? 0xA0) || (c =? 0x1680)
   || ((0x2000 <=? c) && (c <=? 0x200A))
   || (c =? 0x2028) || (c =? 0x2029) || (c =? 0x202F)
   || (c =? 0x205F) || (c =? 0x3000) || (c =? 0xFEFF))%N.

Fixpoint trimStart (s : jsstring) : jsstring :=
  match s with
  | [] => []
  | c :: r => if isWhiteSpace c then trimStart r else s
  end.

Fixpoint trimEnd (s : jsstring) : jsstring :=
  match s with
  | [] => []
  | c :: r =>
      match trimEnd r with
      | [] => if isWhiteSpace c then [] else [c]
      | r' => c :: r'
      end
  end.

(** [String.prototype.trim]. *)
Definition trim (s : jsstring) : jsstring := trimEnd (trimStart s).

(** [s.trim().length === 0]. *)
Definition isBlank (s : jsstring) : bool :=
  match trim s with [] => true | _ :: _ => false end.

(** [String.prototype.startsWith]. *)
Fixpoint startsWith (s prefix : jsstring) {struct prefix} : bool :=
  match prefix, s with
  | [], _ => true
  | _ :: _, [] => false
  | p :: prefix', c :: s' => (p =? c)%N && startsWith s' prefix'
  end.

End JsString.
Import JsString.

(** ** The input normalizer: prompt sanitization *)

(** [.replace(/[\u2028\u2029]/g, " ")]: every occurrence of one of the two
    separators becomes a space. *)
Definition replaceSeparators (s : jsstring) : jsstring :=
  List.map
    (fun c => if ((c =? LINE_SEPARATOR) || (c =? PARAGRAPH_SEPARATOR))%N
              then SPACE else c)
    s.

(** [.replace(/\r?\n/g, " ")]: scanning from the left, a line feed, with
    the carriage return right before it when there is one, becomes a
    space; a carriage return that no line feed follows is kept. *)
Fixpoint replaceNewlines (s : jsstring) : jsstring :=
  match s with
  | [] => []
  | c :: r =>
      if (c =? LF)%N then SPACE :: replaceNewlines r
      else
        match r with
        | d :: r' =>
            if ((c =? CR) && (d =? LF))%N then SPACE :: replaceNewlines r'
            else c :: replaceNewlines r
        | [] => [c]
        end
  end.

(** [.replace(/\s+/g, " ")] as a scanner with one bit of state: [inRun]
    holds while the scanner is inside a match of [\s+], whose single
    replacement space was emitted at the first code unit of the match. *)
Fixpoint collapseFrom (inRun : bool) (s : jsstring) : jsstring :=
  match s with
  | [] => []
  | c :: r =>
      if isWhiteSpace c
      then if inRun then collapseFrom true r else SPACE :: collapseFrom true r
      else c :: collapseFrom false r
  end.

Definition collapseWhitespace (s : jsstring) : jsstring := collapseFrom false s.

Definition cleanPromptForVidu (raw : jsstring) : jsstring :=
  trim (collapseWhitespace (replaceNewlines (replaceSeparators raw))).


(** ** JavaScript numbers and the duration policy *)

Module JsNumber.

(** A number is an IEEE 754 binary64 value. *)
Definition number := spec_float.

Definition prec : Z := 53.
Definition emax : Z := 1024.

(** The binary64 value of the decimal literal [m * 2^e]. *)
Definition literal (m e : Z) : number := binary_normalize prec emax m e false.

Definition ofN (n : N) : number := literal (Z.of_N n) 0.

Definition NaN : number := S754_nan.
Definition posInfinity : number := S754_infinity false.
Definition negInfinity : number := S754_infinity true.

(** [Number.isNaN] and [Number.isFinite] on a value that is a number. *)
Definition isNaN (x : number) : bool :=
  match x with S754_nan => true | _ => false end.

Definition isFinite (x : number) : bool :=
  match x with S754_nan | S754_infinity _ => false | _ => true end.

Definition isPosZero (x : number) : bool :=
  match x with S754_zero false => true | _ => false end.

Definition isNegZero (x : number) : bool :=
  match x with S754_zero true => true | _ => false end.

(** [Math.max]: the running maximum starts at minus infinity, a NaN
    argument makes the result NaN, and [+0] counts as larger than [-0]. *)
Fixpoint maxFrom (highest : number) (xs : list number) : number :=
  match xs with
  | [] => highest
  | x :: r =>
      if isNaN x then NaN
      else if isPosZero x && isNegZero highest then maxFrom x r
      else if SFltb highest x then maxFrom x r
      else maxFrom highest r
  end.

Definition Math_max (xs : list number) : number := maxFrom negInfinity xs.

(** [Math.min], symmetrically. *)
Fixpoint minFrom (lowest : number) (xs : list number) : number :=
  match xs with
  | [] => lowest
  | x :: r =>
      if isNaN x then NaN
      else if isNegZero x && isPosZero lowest then minFrom x r
      else if SFltb x lowest then minFrom x r
      else minFrom lowest r
  end.

Definition Math_min (xs : list number) : number := minFrom posInfinity xs.

End JsNumber.
Import JsNumber.

Definition MIN_DURATION_SECONDS : number := literal 1 0.
Definition MAX_DURATION_SECONDS : number := literal 8 0.
Definition DEFAULT_DURATION_SECONDS : number := literal 4 0.
Definition DEFAULT_ASPECT_RATIO : jsstring := js "16:9".

(** [value] is [None] for [undefined]; the schema admits nothing but a
    number otherwise, so [typeof value !== "number"] is the [None] case. *)
Definition clampDuration (value : option number) : number :=
  match value with
  | None => DEFAULT_DURATION_SECONDS
  | Some v =>
      if isNaN v || negb (isFinite v) then DEFAULT_DURATION_SECONDS
      else Math_min [MAX_DURATION_SECONDS; Math_max [MIN_DURATION_SECONDS; v]]
  end.

(** ** Values of a parsed response body *)

Inductive JSValue : Type :=
| VUndefined
| VNull
| VBool (b : bool)
| VNumber (x : number)
| VString (s : jsstring)
| VArray (items : list JSValue)
| VObject (fields : list (jsstring * JSValue)).

(** [v ?? d] takes [d] exactly when [v] is [null] or [undefined]. *)
Definition nullish (v : JSValue) : bool :=
  match v with VUndefined | VNull => true | _ => false end.

Definition isDigit (c : N) : bool := ((48 <=? c) && (c <=? 57))%N.

Fixpoint digitsValue (acc : N) (s : jsstring) : option N :=
  match s with
  | [] => Some acc
  | c :: r => if isDigit c then digitsValue (acc * 10 + (c - 48))%N r else None
  end.

(** A property key that is a canonical array index: ["0"], or decimal
    digits without a leading zero. *)
Definition arrayIndex (key : jsstring) : option N :=
  match key with
  | [] => None
  | c :: r =>
      if (c =? 48)%N then (match r with [] => Some 0%N | _ => None end)
      else digitsValue 0 key
  end.

Fixpoint lookupField (key : jsstring) (fields : list (jsstring * JSValue))
  : option JSValue :=
  match fields with
  | [] => None
  | (k, v) :: rest => if JsString.eqb k key then Some v else lookupField key rest
  end.

(** [source[key]] for the own properties of a parsed body: the fields of an
    object (each key occurs once in a parsed object), the elements and
    [length] of an array, the code units and
    [length] of a string.  What a value inherits from the built-in
    prototypes is left out: those members are functions and accessors, none
    of them a string, and a reader that keeps strings only sees them as it
    sees [undefined]. *)
Definition getProp (source : JSValue) (key : jsstring) : JSValue :=
  match source with
  | VObject fields =>
      match lookupField key fields with Some v => v | None => VUndefined end
  | VArray items =>
      if JsString.eqb key (js "length")
      then VNumber (ofN (N.of_nat (List.length items)))
      else match arrayIndex key with
           | Some i => nth (N.to_nat i) items VUndefined
           | None => VUndefined
           end
  | VString s =>
      if JsString.eqb key (js "length")
      then VNumber (ofN (N.of_nat (List.length s)))
      else match arrayIndex key with
           | Some i => match nth_error s (N.to_nat i) with
                       | Some c => VString [c]
                       | None => VUndefined
                       end
           | None => VUndefined
           end
  | _ => VUndefined
  end.

(** ** Thrown values and the services of the host *)

(** What a [throw] carries: an [Error] with its message, or some other
    value (for which [error instanceof Error] is false). *)
Inductive Thrown : Type :=
| Error (message : jsstring)
| NonError.

Inductive Outcome (A : Type) : Type :=
| Returned (a : A)
| Threw (e : Thrown).
Arguments Returned {A} a.
Arguments Threw {A} e.

Definition asciiLower (c : N) : N :=
  if ((65 <=? c) && (c <=? 90))%N then (c + 32)%N else c.

Definition isAscii (c : N) : bool := (c <? 128)%N.

(** The two library functions whose tables live in the host and not in
    this repository: [String.prototype.toLowerCase] (Unicode case mapping)
    and [Buffer.from(s, "base64").toString("utf8")].  Of the first only its
    behaviour on ASCII text is fixed here, of the second only that nothing
    decodes to nothing. *)
Class Host : Type := {
  toLowerCase : jsstring -> jsstring;
  decodeBase64Utf8 : jsstring -> Outcome jsstring;
  toLowerCase_ascii :
    forall s, forallb isAscii s = true -> toLowerCase s = List.map asciiLower s;
  decodeBase64Utf8_empty : decodeBase64Utf8 [] = Returned []
}.

(** ** The input normalizer *)

Module Input.
(** [GenerateViduVideoInput]: every field is optional. *)
Record t : Type := Build {
  prompt : option jsstring;
  promptBase64 : option jsstring;
  durationSeconds : option number;
  aspectRatio : option jsstring;
  style : option jsstring;
  referenceImageUrl : option jsstring
}.
End Input.

Module Options.
(** [CreateViduVideoOptions]. *)
Record t : Type := Build {
  prompt : jsstring;
  durationSeconds : number;
  aspectRatio : jsstring;
  style : option jsstring;
  referenceImageUrl : option jsstring
}.
End Options.

(** The two prompt fields of [schema], which the hosting framework checks
    before the tool body runs: [prompt] has at least one code unit, and
    [promptBase64] matches [/^[A-Za-z0-9+/=]+$/]. *)
Definition isBase64Char (c : N) : bool :=
  (((65 <=? c) && (c <=? 90)) || ((97 <=? c) && (c <=? 122))
   || ((48 <=? c) && (c <=? 57)) || (c =? 43) || (c =? 47) || (c =? 61))%N.

Definition schemaAcceptsPrompts (input : Input.t) : bool :=
  match Input.prompt input with
  | None => true
  | Some p => (1 <=? List.length p)%nat
  end
  && match Input.promptBase64 input with
     | None => true
     | Some s => (1 <=? List.length s)%nat && forallb isBase64Char s
     end.

(** An optional string in a condition: [undefined] and [""] are falsy. *)
Definition whenTruthy (o : option jsstring) : option jsstring :=
  match o with
  | Some (c :: r) => Some (c :: r)
  | _ => None
  end.

(** [o?.trim() || undefined]. *)
Definition trimmedOrUndefined (o : option jsstring) : option jsstring :=
  whenTruthy (option_map trim o).

Definition MSG_DECODED_EMPTY : jsstring :=
  js "promptBase64 decoded to an empty string".
Definition MSG_DECODE_FAILED : jsstring :=
  js "Failed to decode promptBase64. Ensure it is valid base64. ".
Definition MSG_MISSING_PROMPT : jsstring :=
  js "Provide either promptBase64 or prompt.".
Definition MSG_EMPTY_PROMPT : jsstring := js "Prompt cannot be empty".
Definition MSG_MISSING_KEY : jsstring :=
  js "VIDU_API_KEY is not set in the environment".

(** [error instanceof Error ? error.message : ""]. *)
Definition messageOf (e : Thrown) : jsstring :=
  match e with Error m => m | NonError => [] end.

Section Normalizer.
Context {host : Host}.

(** The body of the [try] block of [resolvePrompt]. *)
Definition decodePrompt (encoded : jsstring) : Outcome jsstring :=
  match decodeBase64Utf8 encoded with
  | Returned decoded =>
      if (List.length (trim decoded) =? 0)%nat
      then Threw (Error MSG_DECODED_EMPTY)
      else Returned decoded
  | Threw e => Threw e
  end.

Definition resolvePrompt (input : Input.t) : Outcome jsstring :=
  match whenTruthy (Input.promptBase64 input) with
  | Some encoded =>
      match decodePrompt encoded with
      | Returned decoded => Returned decoded
      | Threw error => Threw (Error (MSG_DECODE_FAILED ++ messageOf error))
      end
  | None =>
      match Input.prompt input with
      | Some p =>
          if (0 <? List.length (trim p))%nat then Returned p
          else Threw (Error MSG_MISSING_PROMPT)
      | None => Threw (Error MSG_MISSING_PROMPT)
      end
  end.

End Normalizer.

(** ** Effects of a call: the event trace *)

Record HttpRequest : Type := {
  req_url : jsstring;
  req_method : jsstring;
  req_headers : list (jsstring * jsstring);
  (** the payload that [JSON.stringify] serialises into the body *)
  req_payload : JSValue
}.

(** A response of the provider: [resp_json] is [None] when
    [response.json()] rejects. *)
Record HttpResponse : Type := {
  resp_status : N;
  resp_statusText : jsstring;
  resp_json : option JSValue
}.

(** [response.ok]: the status is in the range 200-299. *)
Definition resp_ok (r : HttpResponse) : bool :=
  ((200 <=? resp_status r) && (resp_status r <=? 299))%N.

(** What [fetch] does with a request: it resolves with a response or
    rejects. *)
Definition Network : Type := HttpRequest -> Outcome HttpResponse.

Inductive Event : Type :=
| Fetch (request : HttpRequest)
| ConsoleError (line : jsstring).

(** A computation yields the events it performed, in order, and how it
    ended. *)
Definition M (A : Type) : Type := (list Event * Outcome A)%type.

Definition ret {A} (a : A) : M A := ([], Returned a).
Definition throw {A} (e : Thrown) : M A := ([], Threw e).
Definition bind {A B} (m : M A) (k : A -> M B) : M B :=
  match m with
  | (t, Returned a) => let (t', r) := k a in (t ++ t', r)
  | (t, Threw e) => (t, Threw e)
  end.
Definition lift {A} (o : Outcome A) : M A := ([], o).
Definition fetch (net : Network) (request : HttpRequest) : M HttpResponse :=
  ([Fetch request], net request).
Definition consoleError (line : jsstring) : M unit :=
  ([ConsoleError line], Returned tt).

Notation "x <- m ;; k" := (bind m (fun x => k))
  (at level 61, m at next level, right associativity).
Notation "m ;;; k" := (bind m (fun _ => k))
  (at level 61, right associativity).

Definition trace {A} (m : M A) : list Event := fst m.
Definition outcome {A} (m : M A) : Outcome A := snd m.

(** The requests a computation sent. *)
Fixpoint requestsOf (t : list Event) : list HttpRequest :=
  match t with
  | [] => []
  | Fetch r :: t' => r :: requestsOf t'
  | ConsoleError _ :: t' => requestsOf t'
  end.

(** ** The provider client *)

Definition DEFAULT_VIDU_ENDPOINT : jsstring := js "https://api.vidu.com/v1/videos".

Inductive ViduVideoStatus : Type := queued | completed | failed.

(** [ViduVideoResult]; an optional field that the returned object does
    not have is [None]. *)
Record ViduVideoResult : Type := {
  videoUrl : jsstring;
  status : ViduVideoStatus;
  previewImageUrl : option jsstring;
  jobId : option jsstring;
  rawResponse : JSValue
}.

(** [process.env]. *)
Record Env : Type := {
  VIDU_API_KEY : option jsstring;
  VIDU_API_URL : option jsstring
}.

Fixpoint extractString (source : JSValue) (keys : list jsstring) : jsstring :=
  match keys with
  | [] => []
  | key :: rest =>
      match getProp source key with
      | VString value =>
          if (0 <? List.length (trim value))%nat then value
          else extractString source rest
      | _ => extractString source rest
      end
  end.

Definition VIDEO_URL_KEYS : list jsstring :=
  [js "video_url"; js "videoUrl"; js "output_url"; js "outputUrl"].
Definition PREVIEW_KEYS : list jsstring :=
  [js "preview_image_url"; js "previewImageUrl"; js "thumbnail_url";
   js "thumbnail"].
Definition JOB_ID_KEYS : list jsstring := [js "job_id"; js "jobId"; js "id"].
Definition STATUS_KEYS : list jsstring := [js "status"].

(** The decimal digits of an integer status code, as a template literal
    prints it. *)
Definition decimal (n : N) : jsstring :=
  js (NilZero.string_of_uint (N.to_uint n)).

Definition buildPayload (options : Options.t) : JSValue :=
  VObject
    ([(js "prompt", VString (Options.prompt options));
      (js "duration", VNumber (Options.durationSeconds options));
      (js "aspect_ratio", VString (Options.aspectRatio options))]
     ++ match trimmedOrUndefined (Options.style options) with
        | Some trimmedStyle => [(js "style", VString trimmedStyle)]
        | None => []
        end
     ++ match whenTruthy (Options.referenceImageUrl options) with
        | Some url => [(js "reference_image_url", VString url)]
        | None => []
        end).

(** The arguments of the one [fetch] call: the endpoint, and the POST
    request with its two headers and the payload. *)
Definition buildRequest (env : Env) (apiKey : jsstring) (options : Options.t)
  : HttpRequest :=
  let endpoint :=
    match trimmedOrUndefined (VIDU_API_URL env) with
    | Some url => url
    | None => DEFAULT_VIDU_ENDPOINT
    end in
  {| req_url := endpoint;
     req_method := js "POST";
     req_headers :=
       [(js "Content-Type", js "application/json");
        (js "Authorization", js "Bearer " ++ apiKey)];
     req_payload := buildPayload options |}.

Section Client.
Context {host : Host}.

Definition createViduVideo (env : Env) (net : Network) (options : Options.t)
  : M ViduVideoResult :=
  match whenTruthy (VIDU_API_KEY env) with
  | None => throw (Error MSG_MISSING_KEY)
  | Some apiKey =>
      response <- fetch net (buildRequest env apiKey options) ;;
      let responseBody :=
        match resp_json response with
        | Some body => body
        | None => VUndefined
        end in
      if negb (resp_ok response) then
        consoleError
          (js "[Vidu] Request failed with status "
           ++ decimal (resp_status response) ++ js " "
           ++ resp_statusText response) ;;;
        ret {| videoUrl := [];
               status := failed;
               previewImageUrl := None;
               jobId := None;
               rawResponse := responseBody |}
      else
        let parsed := if nullish responseBody then VObject [] else responseBody in
        let videoUrl := extractString parsed VIDEO_URL_KEYS in
        let previewImageUrl := extractString parsed PREVIEW_KEYS in
        let jobId := extractString parsed JOB_ID_KEYS in
        let rawStatus := extractString parsed STATUS_KEYS in
        let status :=
          if truthy rawStatus then
            let normalized := toLowerCase rawStatus in
            if startsWith normalized (js "complete") then completed
            else if startsWith normalized (js "fail")
                    || JsString.eqb normalized (js "error")
                 then failed
                 else queued
          else if truthy videoUrl then completed
          else queued in
        ret {| videoUrl := videoUrl;
               status := status;
               previewImageUrl := Some previewImageUrl;
               jobId := Some jobId;
               rawResponse := parsed |}
  end.

(** The tool body: normalize the input, then call the client. *)
Definition generateViduVideo (env : Env) (net : Network) (input : Input.t)
  : M ViduVideoResult :=
  rawPrompt <- lift (resolvePrompt input) ;;
  let prompt := cleanPromptForVidu rawPrompt in
  if negb (truthy prompt) then throw (Error MSG_EMPTY_PROMPT)
  else
    let durationSeconds := clampDuration (Input.durationSeconds input) in
    let aspectRatio :=
      match Input.aspectRatio input with
      | Some a => a
      | None => DEFAULT_ASPECT_RATIO
      end in
    let style := trimmedOrUndefined (Input.style input) in
    let referenceImageUrl := trimmedOrUndefined (Input.referenceImageUrl input) in
    createViduVideo env net
      (Options.Build prompt durationSeconds aspectRatio style referenceImageUrl).

End Client.

(** ** A host to run the examples on

    ASCII lower-casing (letters outside ASCII are left alone), and base64
    of the standard alphabet followed by UTF-8 decoding with U+FFFD for a
    malformed byte.  The theorems below hold for every [Host]; this one
    shows that the interface is inhabited and evaluates the examples. *)

Module ReferenceHost.

Definition sextet (c : N) : option N :=
  (if (65 <=? c) && (c <=? 90) then Some (c - 65)
   else if (97 <=? c) && (c <=? 122) then Some (c - 71)
   else if (48 <=? c) && (c <=? 57) then Some (c + 4)
   else if c =? 43 then Some 62
   else if c =? 47 then Some 63
   else None)%N.

(** The sextets up to the padding or the first foreign code unit. *)
Fixpoint sextets (s : jsstring) : list N :=
  match s with
  | [] => []
  | c :: r => match sextet c with Some v => v :: sextets r | None => [] end
  end.

Fixpoint bytesOfSextets (xs : list N) : list N :=
  match xs with
  | a :: b :: c :: d :: r =>
      (a * 4 + b / 16 :: (b mod 16) * 16 + c / 4 :: (c mod 4) * 64 + d
       :: bytesOfSextets r)%N
  | [a; b; c] => [a * 4 + b / 16; (b mod 16) * 16 + c / 4]%N
  | [a; b] => [a * 4 + b / 16]%N
  | _ => []
  end.

Definition continuation (b : N) : bool := ((0x80 <=? b) && (b <=? 0xBF))%N.
Definition REPLACEMENT : N := 0xFFFD%N.

Fixpoint utf8 (bs : list N) : jsstring :=
  match bs with
  | [] => []
  | b0 :: r0 =>
      if (b0 <? 0x80)%N then b0 :: utf8 r0
      else
        match r0 with
        | [] => [REPLACEMENT]
        | b1 :: r1 =>
            if ((0xC2 <=? b0) && (b0 <=? 0xDF))%N && continuation b1
            then ((b0 - 0xC0) * 64 + (b1 - 0x80))%N :: utf8 r1
            else
              match r1 with
              | [] => REPLACEMENT :: utf8 r0
              | b2 :: r2 =>
                  let cp3 := ((b0 - 0xE0) * 4096 + (b1 - 0x80) * 64
                              + (b2 - 0x80))%N in
                  if ((0xE0 <=? b0) && (b0 <=? 0xEF))%N
                     && continuation b1 && continuation b2
                     && (0x800 <=? cp3)%N
                     && negb ((0xD800 <=? cp3) && (cp3 <=? 0xDFFF))%N
                  then cp3 :: utf8 r2
                  else
                    match r2 with
                    | [] => REPLACEMENT :: utf8 r0
                    | b3 :: r3 =>
                        let cp4 := ((b0 - 0xF0) * 262144 + (b1 - 0x80) * 4096
                                    + (b2 - 0x80) * 64 + (b3 - 0x80))%N in
                        if ((0xF0 <=? b0) && (b0 <=? 0xF4))%N
                           && continuation b1 && continuation b2
                           && continuation b3
                           && ((0x10000 <=? cp4) && (cp4 <=? 0x10FFFF))%N
                        then (0xD800 + (cp4 - 0x10000) / 1024)%N
                             :: (0xDC00 + (cp4 - 0x10000) mod 1024)%N
                             :: utf8 r3
                        else REPLACEMENT :: utf8 r0
                    end
              end
        end
  end.

Definition decode (s : jsstring) : Outcome jsstring :=
  Returned (utf8 (bytesOfSextets (sextets s))).

#[export] Instance host : Host := {|
  toLowerCase := List.map asciiLower;
  decodeBase64Utf8 := decode;
  toLowerCase_ascii := fun _ _ => eq_refl;
  decodeBase64Utf8_empty := eq_refl
|}.

End ReferenceHost.


(** ** Vocabulary of the statements *)

(** Every white-space code unit of [s] is a plain space, and no two
    white-space code units are adjacent. *)
Fixpoint singleSpaced (s : jsstring) : Prop :=
  match s with
  | [] => True
  | c :: r =>
      (isWhiteSpace c = true ->
       c = SPACE /\ forall d r', r = d :: r' -> isWhiteSpace d = false)
      /\ singleSpaced r
  end.

(** [s] neither starts nor ends with a white-space code unit. *)
Definition noOuterWhitespace (s : jsstring) : Prop :=
  (forall c r, s = c :: r -> isWhiteSpace c = false)
  /\ (forall c r, s = r ++ [c] -> isWhiteSpace c = false).


(** [s] starts with [p]. *)
Definition hasPrefix (p s : jsstring) : Prop := exists rest, s = p ++ rest.

(** [s] is empty or holds white space only. *)
Definition blank (s : jsstring) : Prop :=
  forall c, In c s -> isWhiteSpace c = true.

(** [s] holds at least one code unit that is not white space. *)
Definition hasVisible (s : jsstring) : Prop :=
  exists c, In c s /\ isWhiteSpace c = false.

(** The value under [key] is the string [value], which is not blank. *)
Definition qualifies (source : JSValue) (key value : jsstring) : Prop :=
  getProp source key = VString value /\ hasVisible value.

(** The value under [key] is no string, or a blank one. *)
Definition passedOver (source : JSValue) (key : jsstring) : Prop :=
  forall s, getProp source key = VString s -> blank s.

(** ** Data of the examples *)

Definition env_ex : Env :=
  {| VIDU_API_KEY := Some (js "secret"); VIDU_API_URL := None |}.

Definition options_ex : Options.t :=
  Options.Build (js "a cat on a skateboard") (literal 4 0) (js "16:9") None None.

(** A provider that answers every request with [r]. *)
Definition respond (r : HttpResponse) : Network := fun _ => Returned r.

Definition response_ex (code : N) (body : option JSValue) : HttpResponse :=
  {| resp_status := code; resp_statusText := js "x"; resp_json := body |}.

(** The body a success response is read from: the parsed JSON value, or
    the empty object in its place when there is none. *)
Definition bodyOf (response : HttpResponse) : JSValue :=
  match resp_json response with
  | Some body => if nullish body then VObject [] else body
  | None => VObject []
  end.

(** The line written to the console on a failed request. *)
Definition failureLine (response : HttpResponse) : jsstring :=
  js "[Vidu] Request failed with status "
  ++ decimal (resp_status response) ++ js " " ++ resp_statusText response.

Definition body_failed_timeout : JSValue :=
  VObject [(js "status", VString (js "FAILED_TIMEOUT"))].

Definition body_processing : JSValue :=
  VObject [(js "status", VString (js "Processing"))].

Definition body_video_only : JSValue :=
  VObject [(js "video_url", VString (js "https://x/y.mp4"))].


Definition body_job_ids : JSValue :=
  VObject [(js "job_id", VNumber (literal 7 0));
           (js "jobId", VString (js "  "));
           (js "id", VString (js " j1 "))].

(** ** Further vocabulary *)

(** The code units of [s] that are not white space, in order. *)
Definition visibleUnits (s : jsstring) : jsstring :=
  filter (fun c => negb (isWhiteSpace c)) s.

(** ** The tool body that takes the plain prompt only

    [src/tools/generateViduVideo.ts] as it stands without the
    [promptBase64] field: [prompt] is required, and the tool sanitizes it
    directly. *)

Module PlainPromptTool.

Record Input : Type := Build {
  prompt : jsstring;
  durationSeconds : option number;
  aspectRatio : option jsstring;
  style : option jsstring;
  referenceImageUrl : option jsstring
}.

Definition generateViduVideo {host : Host}
  (env : Env) (net : Network) (input : Input) : M ViduVideoResult :=
  let prompt := cleanPromptForVidu (prompt input) in
  if negb (truthy prompt) then throw (Error MSG_EMPTY_PROMPT)
  else
    let durationSeconds := clampDuration (durationSeconds input) in
    let aspectRatio :=
      match aspectRatio input with
      | Some a => a
      | None => DEFAULT_ASPECT_RATIO
      end in
    let style := trimmedOrUndefined (style input) in
    let referenceImageUrl := trimmedOrUndefined (referenceImageUrl input) in
    createViduVideo env net
      (Options.Build prompt durationSeconds aspectRatio style referenceImageUrl).

End PlainPromptTool.

(** The value of the header [name] of a request, if it has one. *)
Fixpoint lookupHeader (name : jsstring) (headers : list (jsstring * jsstring))
  : option jsstring :=
  match headers with
  | [] => None
  | (k, v) :: rest => if JsString.eqb k name then Some v else lookupHeader name rest
  end.

Definition isObject (v : JSValue) : bool :=
  match v with VObject _ => true | _ => false end.

(** The result of a success response in which no field was found. *)
Definition emptyResult (raw : JSValue) : ViduVideoResult :=
  {| videoUrl := [];
     status := queued;
     previewImageUrl := Some [];
     jobId := Some [];
     rawResponse := raw |}.

(** The options the tool hands to the client once the prompt [raw] is
    resolved. *)
Definition normalizedOptions (input : Input.t) (raw : jsstring) : Options.t :=
  Options.Build
    (cleanPromptForVidu raw)
    (clampDuration (Input.durationSeconds input))
    (match Input.aspectRatio input with
     | Some a => a
     | None => DEFAULT_ASPECT_RATIO
     end)
    (trimmedOrUndefined (Input.style input))
    (trimmedOrUndefined (Input.referenceImageUrl input)).

(** * Properties *)

(** ** Trimming *)

Lemma trimStart_head s c r :
  trimStart s = c :: r -> isWhiteSpace c = false.
Proof.
  induction s as [|a s IH]; simpl; [discriminate|].
  destruct (isWhiteSpace a) eqn:Ha; [exact IH|].
  intros E; injection E as -> _; exact Ha.
Qed.

Lemma trimEnd_prefix s : exists t, s = trimEnd s ++ t.
Proof.
  induction s as [|a s [t IH]]; simpl; [now exists []|].
  destruct (trimEnd s) as [|d u] eqn:E.
  - destruct (isWhiteSpace a).
    + now exists (a :: s).
    + exists t. simpl in *. now rewrite <- IH.
  - exists t. simpl in *. now rewrite <- IH.
Qed.

Lemma trimEnd_last s : forall r c,
  trimEnd s = r ++ [c] -> isWhiteSpace c = false.
Proof.
  induction s as [|a s IH]; simpl; intros r c E.
  - now destruct r.
  - destruct (trimEnd s) as [|d u] eqn:Es.
    + destruct (isWhiteSpace a) eqn:Ha.
      * now destruct r.
      * destruct r as [|x r]; simpl in E.
        -- injection E as <-; exact Ha.
        -- injection E as _ E; now destruct r.
    + destruct r as [|x r]; simpl in E; [discriminate|].
      injection E as _ E. exact (IH r c E).
Qed.

Lemma trimStart_fixed s :
  (forall c r, s = c :: r -> isWhiteSpace c = false) -> trimStart s = s.
Proof.
  destruct s as [|a s]; simpl; [reflexivity|].
  intros H. now rewrite (H a s eq_refl).
Qed.

Lemma trimEnd_fixed s :
  (forall c r, s = r ++ [c] -> isWhiteSpace c = false) -> trimEnd s = s.
Proof.
  induction s as [|a s IH]; simpl; [reflexivity|].
  intros H. rewrite IH.
  - destruct s as [|d u]; [|reflexivity].
    now rewrite (H a [] eq_refl).
  - intros c r ->. exact (H c (a :: r) eq_refl).
Qed.

Lemma trim_noOuterWhitespace s : noOuterWhitespace (trim s).
Proof.
  unfold trim; split.
  - intros c r E. destruct (trimEnd_prefix (trimStart s)) as [t Ht].
    rewrite E in Ht. exact (trimStart_head s c (r ++ t) Ht).
  - intros c r E. exact (trimEnd_last _ r c E).
Qed.

Lemma trim_fixed s : noOuterWhitespace s -> trim s = s.
Proof.
  intros [Hh Hl]. unfold trim.
  rewrite (trimStart_fixed s Hh). exact (trimEnd_fixed s Hl).
Qed.

(** ** Single-spaced strings *)

Lemma singleSpaced_trimStart s : singleSpaced s -> singleSpaced (trimStart s).
Proof.
  induction s as [|a s IH]; simpl; [trivial|].
  intros [Ha Hs]. destruct (isWhiteSpace a) eqn:Wa; [exact (IH Hs)|].
  simpl. split; [rewrite Wa; discriminate|exact Hs].
Qed.

Lemma singleSpaced_trimEnd s : singleSpaced s -> singleSpaced (trimEnd s).
Proof.
  induction s as [|a s IH]; simpl; [trivial|].
  intros [Ha Hs]. specialize (IH Hs).
  destruct (trimEnd_prefix s) as [t Ht].
  destruct (trimEnd s) as [|d u] eqn:E.
  - destruct (isWhiteSpace a) eqn:Wa; simpl; [trivial|].
    split; [|trivial]. rewrite Wa; discriminate.
  - simpl. split; [|exact IH].
    intros Wa. destruct (Ha Wa) as [-> Hn]. split; [reflexivity|].
    intros d' r' E'. injection E' as <- <-.
    exact (Hn d (u ++ t) Ht).
Qed.

Lemma singleSpaced_white s c :
  singleSpaced s -> In c s -> isWhiteSpace c = true -> c = SPACE.
Proof.
  induction s as [|a s IH]; simpl; [tauto|].
  intros [Ha Hs] [->|Hin] W; [exact (proj1 (Ha W))|now apply IH].
Qed.

Lemma singleSpaced_no_double s a b :
  singleSpaced s -> s <> a ++ [SPACE; SPACE] ++ b.
Proof.
  intros Hs ->. induction a as [|x a IH]; simpl in Hs.
  - destruct Hs as [H _]. destruct (H eq_refl) as [_ Hn].
    specialize (Hn SPACE b eq_refl). discriminate.
  - exact (IH (proj2 Hs)).
Qed.

Lemma collapseFrom_singleSpaced s : forall inRun,
  singleSpaced (collapseFrom inRun s)
  /\ (inRun = true ->
      forall d r, collapseFrom inRun s = d :: r -> isWhiteSpace d = false).
Proof.
  induction s as [|c s IH]; intros inRun; simpl.
  - split; [trivial|discriminate].
  - destruct (isWhiteSpace c) eqn:Wc.
    + destruct inRun.
      * exact (IH true).
      * destruct (IH true) as [Hs Hh]. split; [|discriminate].
        simpl. split; [|exact Hs].
        intros _. split; [reflexivity|exact (Hh eq_refl)].
    + destruct (IH false) as [Hs _]. split.
      * simpl. split; [|exact Hs]. rewrite Wc; discriminate.
      * intros _ d r E. injection E as <- _. exact Wc.
Qed.

Lemma collapseFrom_fixed s : forall inRun,
  singleSpaced s ->
  (inRun = true -> forall d r, s = d :: r -> isWhiteSpace d = false) ->
  collapseFrom inRun s = s.
Proof.
  induction s as [|c s IH]; intros inRun Hs Hh; simpl; [reflexivity|].
  destruct Hs as [Hc Hs]. destruct (isWhiteSpace c) eqn:Wc.
  - destruct (Hc eq_refl) as [-> Hn]. destruct inRun.
    + rewrite (Hh eq_refl SPACE s eq_refl) in Wc. discriminate.
    + f_equal. apply IH; [exact Hs|]. intros _. exact Hn.
  - f_equal. apply IH; [exact Hs|discriminate].
Qed.

Lemma replaceSeparators_fixed s :
  ~ In LINE_SEPARATOR s -> ~ In PARAGRAPH_SEPARATOR s ->
  replaceSeparators s = s.
Proof.
  unfold replaceSeparators. induction s as [|c s IH]; simpl; [reflexivity|].
  intros H1 H2.
  destruct (N.eqb_spec c LINE_SEPARATOR) as [->|_]; [tauto|].
  destruct (N.eqb_spec c PARAGRAPH_SEPARATOR) as [->|_]; [tauto|].
  simpl. f_equal. apply IH; tauto.
Qed.

Lemma replaceNewlines_fixed s : ~ In LF s -> replaceNewlines s = s.
Proof.
  induction s as [|c s IH]; [reflexivity|].
  intros H. cbn [replaceNewlines].
  destruct (N.eqb_spec c LF) as [->|_]; [simpl in H; tauto|].
  destruct s as [|d s]; [reflexivity|].
  destruct (N.eqb_spec d LF) as [->|_]; [simpl in H; tauto|].
  rewrite andb_false_r. f_equal. apply IH. simpl in *; tauto.
Qed.

Lemma cleanPromptForVidu_singleSpaced raw :
  singleSpaced (cleanPromptForVidu raw).
Proof.
  unfold cleanPromptForVidu, trim, collapseWhitespace.
  apply singleSpaced_trimEnd, singleSpaced_trimStart.
  exact (proj1 (collapseFrom_singleSpaced _ false)).
Qed.

Lemma singleSpaced_excludes s c :
  singleSpaced s -> isWhiteSpace c = true -> c <> SPACE -> ~ In c s.
Proof.
  intros Hs W Hne Hin. exact (Hne (singleSpaced_white s c Hs Hin W)).
Qed.

(** C5. Prompt sanitization is idempotent, and its output holds no
    U+2028 and no U+2029, no line feed and no carriage return, no two
    consecutive spaces, and no white space at either end. *)
Theorem cleanPromptForVidu_idempotent_and_clean (raw : jsstring) :
  let out := cleanPromptForVidu raw in
  cleanPromptForVidu out = out
  /\ ~ In LINE_SEPARATOR out /\ ~ In PARAGRAPH_SEPARATOR out
  /\ ~ In LF out /\ ~ In CR out
  /\ (forall a b, out <> a ++ [SPACE; SPACE] ++ b)
  /\ noOuterWhitespace out.
Proof.
  intros out.
  assert (Hs : singleSpaced out) by apply cleanPromptForVidu_singleSpaced.
  assert (Ho : noOuterWhitespace out) by apply trim_noOuterWhitespace.
  assert (H1 : ~ In LINE_SEPARATOR out)
    by (apply singleSpaced_excludes; [exact Hs|reflexivity|discriminate]).
  assert (H2 : ~ In PARAGRAPH_SEPARATOR out)
    by (apply singleSpaced_excludes; [exact Hs|reflexivity|discriminate]).
  assert (H3 : ~ In LF out)
    by (apply singleSpaced_excludes; [exact Hs|reflexivity|discriminate]).
  assert (H4 : ~ In CR out)
    by (apply singleSpaced_excludes; [exact Hs|reflexivity|discriminate]).
  repeat split; try assumption; try apply Ho.
  - unfold cleanPromptForVidu at 1, collapseWhitespace.
    rewrite (replaceSeparators_fixed out H1 H2).
    rewrite (replaceNewlines_fixed out H3).
    rewrite (collapseFrom_fixed out false Hs); [|discriminate].
    exact (trim_fixed out Ho).
  - intros a b. exact (singleSpaced_no_double out a b Hs).
Qed.

Example cleanPromptForVidu_example :
  cleanPromptForVidu
    ([CR; LF] ++ js "a" ++ [LINE_SEPARATOR; PARAGRAPH_SEPARATOR] ++ js "b"
     ++ [CR] ++ js "c" ++ [9%N; SPACE])
  = js "a b c".
Proof. reflexivity. Qed.

(** ** The duration policy *)

Lemma clampDuration_finite x :
  isFinite x = true ->
  clampDuration (Some x) =
    let y := if SFltb MIN_DURATION_SECONDS x then x else MIN_DURATION_SECONDS in
    if SFltb y MAX_DURATION_SECONDS then y else MAX_DURATION_SECONDS.
Proof.
  intros F. unfold clampDuration.
  assert (N : isNaN x = false) by (destruct x; simpl in *; congruence).
  rewrite N, F. cbn [orb negb].
  unfold Math_min, Math_max.
  cbn [minFrom maxFrom].
  change (isNaN MIN_DURATION_SECONDS) with false.
  change (isNaN MAX_DURATION_SECONDS) with false.
  change (isNegZero MAX_DURATION_SECONDS) with false.
  change (isPosZero MIN_DURATION_SECONDS) with false.
  change (isNegZero MIN_DURATION_SECONDS) with false.
  change (isPosZero MAX_DURATION_SECONDS) with false.
  change (SFltb negInfinity MIN_DURATION_SECONDS) with true.
  change (SFltb MAX_DURATION_SECONDS posInfinity) with true.
  cbn [andb]. rewrite N, !andb_false_r.
  destruct (SFltb MIN_DURATION_SECONDS x); cbn zeta.
  - rewrite N. reflexivity.
  - reflexivity.
Qed.


Lemma MIN_DURATION_SECONDS_value :
  MIN_DURATION_SECONDS = S754_finite false 4503599627370496 (-52).
Proof. reflexivity. Qed.

Lemma MAX_DURATION_SECONDS_value :
  MAX_DURATION_SECONDS = S754_finite false 4503599627370496 (-49).
Proof. reflexivity. Qed.

(** On positive finite values the order is the lexicographic order of
    exponent and mantissa. *)
Lemma SFltb_positive m1 e1 m2 e2 :
  SFltb (S754_finite false m1 e1) (S754_finite false m2 e2)
  = ((e1 <? e2)%Z || ((e1 =? e2)%Z && (m1 <? m2)%positive)).
Proof.
  unfold SFltb, SFcompare. change (Pos.compare_cont Eq) with Pos.compare.
  destruct (Z.compare_spec e1 e2), (Z.ltb_spec e1 e2), (Z.eqb_spec e1 e2);
    try lia; try reflexivity.
  all: cbn [orb andb];
    destruct (Pos.compare_spec m1 m2), (Pos.ltb_spec m1 m2);
    try lia; reflexivity.
Qed.

Lemma SFleb_positive m1 e1 m2 e2 :
  SFleb (S754_finite false m1 e1) (S754_finite false m2 e2)
  = ((e1 <? e2)%Z || ((e1 =? e2)%Z && (m1 <=? m2)%positive)).
Proof.
  unfold SFleb, SFcompare. change (Pos.compare_cont Eq) with Pos.compare.
  destruct (Z.compare_spec e1 e2), (Z.ltb_spec e1 e2), (Z.eqb_spec e1 e2);
    try lia; try reflexivity.
  all: cbn [orb andb];
    destruct (Pos.compare_spec m1 m2), (Pos.leb_spec m1 m2);
    try lia; reflexivity.
Qed.

Ltac order_props :=
  rewrite ?orb_true_iff, ?orb_false_iff, ?andb_true_iff, ?andb_false_iff,
    ?Z.ltb_lt, ?Z.ltb_ge, ?Z.eqb_eq, ?Z.eqb_neq,
    ?Pos.ltb_lt, ?Pos.ltb_ge, ?Pos.leb_le, ?Pos.leb_gt in *.

Ltac order_solve :=
  intros; order_props;
  first [ lia
        | match goal with
          | |- S754_finite _ ?m ?e = S754_finite _ ?m' ?e' =>
              replace m with m' by lia; replace e with e' by lia; reflexivity
          end ].

(** The clamp on a positive finite value, case by case. *)
Lemma clamp_positive m e :
  let x := S754_finite false m e in
  let r := if SFltb (if SFltb MIN_DURATION_SECONDS x then x
                     else MIN_DURATION_SECONDS) MAX_DURATION_SECONDS
           then (if SFltb MIN_DURATION_SECONDS x then x
                 else MIN_DURATION_SECONDS)
           else MAX_DURATION_SECONDS in
  (SFltb x MIN_DURATION_SECONDS = true -> r = MIN_DURATION_SECONDS)
  /\ (SFltb MAX_DURATION_SECONDS x = true -> r = MAX_DURATION_SECONDS)
  /\ (SFleb MIN_DURATION_SECONDS x = true ->
      SFleb x MAX_DURATION_SECONDS = true -> r = x)
  /\ SFleb MIN_DURATION_SECONDS r = true
  /\ SFleb r MAX_DURATION_SECONDS = true.
Proof.
  intros x r. subst x r.
  rewrite MIN_DURATION_SECONDS_value, MAX_DURATION_SECONDS_value.
  generalize 4503599627370496%positive; intros k.
  rewrite !SFltb_positive, !SFleb_positive.
  destruct ((-52 <? e)%Z || (-52 =? e)%Z && (k <? m)%positive) eqn:Lo;
    rewrite ?SFltb_positive, ?SFleb_positive.
  - destruct ((e <? -49)%Z || (e =? -49)%Z && (m <? k)%positive) eqn:Hi;
      rewrite ?SFltb_positive, ?SFleb_positive;
      repeat split; order_solve.
  - change (-52 <? -49)%Z with true; cbn [orb];
      rewrite ?SFltb_positive, ?SFleb_positive;
      repeat split; order_solve.
Qed.

(** C6. [clampDuration] answers the default 4 for an absent, a
    not-a-number and a non-finite value, and otherwise clamps the value into
    the closed interval from 1 to 8: below 1 it answers 1, above 8 it
    answers 8, in between the value itself.  In particular
    clamp(undefined) = 4, clamp(NaN) = 4, clamp(0) = 1, clamp(8.5) = 8 and
    clamp(4) = 4. *)
Theorem clampDuration_policy :
  clampDuration None = literal 4 0
  /\ (forall x, isNaN x = true \/ isFinite x = false ->
                clampDuration (Some x) = literal 4 0)
  /\ (forall x, isFinite x = true ->
        let r := clampDuration (Some x) in
        (SFltb x (literal 1 0) = true -> r = literal 1 0)
        /\ (SFltb (literal 8 0) x = true -> r = literal 8 0)
        /\ (SFleb (literal 1 0) x = true -> SFleb x (literal 8 0) = true ->
            r = x)
        /\ SFleb (literal 1 0) r = true
        /\ SFleb r (literal 8 0) = true)
  /\ clampDuration (Some NaN) = literal 4 0
  /\ clampDuration (Some (literal 0 0)) = literal 1 0
  /\ clampDuration (Some (literal 17 (-1))) = literal 8 0
  /\ clampDuration (Some (literal 4 0)) = literal 4 0.
Proof.
  split; [reflexivity|]. split.
  { intros x [H|H]; unfold clampDuration; rewrite H;
      [|rewrite orb_true_r]; reflexivity. }
  split; [|repeat split; reflexivity].
  intros x F r. subst r. rewrite (clampDuration_finite x F).
  fold MIN_DURATION_SECONDS MAX_DURATION_SECONDS.
  destruct x as [s|s| |s m e]; try discriminate F.
  - repeat split; (reflexivity || discriminate).
  - destruct s.
    + repeat split; (reflexivity || discriminate).
    + exact (clamp_positive m e).
Qed.

Lemma clampDuration_policy_witness :
  clampDuration (Some (literal 3 0)) = literal 3 0
  /\ clampDuration (Some (literal (-5) 0)) = literal 1 0
  /\ clampDuration (Some (literal 17 (-1))) = literal 8 0.
Proof.
  destruct clampDuration_policy as [_ [_ [Hclamp _]]].
  split; [|split].
  - apply (Hclamp (literal 3 0) eq_refl); reflexivity.
  - apply (Hclamp (literal (-5) 0) eq_refl); reflexivity.
  - apply (Hclamp (literal 17 (-1)) eq_refl); reflexivity.
Defined.

(** ** Blank strings *)

Lemma trimStart_nil s : trimStart s = [] <-> blank s.
Proof.
  unfold blank. induction s as [|a s IH]; simpl.
  - split; [intros _ c []|reflexivity].
  - destruct (isWhiteSpace a) eqn:Wa.
    + rewrite IH. split.
      * intros H c [<-|Hc]; [exact Wa|exact (H c Hc)].
      * intros H c Hc. apply H. now right.
    + split; [discriminate|]. intros H.
      rewrite (H a (or_introl eq_refl)) in Wa. discriminate.
Qed.

Lemma trimEnd_cons_visible c r :
  isWhiteSpace c = false -> trimEnd (c :: r) <> [].
Proof.
  intros Wc. simpl. destruct (trimEnd r); [rewrite Wc|]; discriminate.
Qed.

Lemma trim_nil s : trim s = [] <-> blank s.
Proof.
  unfold trim. split.
  - intros E. apply trimStart_nil.
    destruct (trimStart s) as [|c r] eqn:Es; [reflexivity|].
    exfalso. exact (trimEnd_cons_visible c r (trimStart_head s c r Es) E).
  - intros B. apply trimStart_nil in B. now rewrite B.
Qed.

Lemma blank_or_visible s : {blank s} + {hasVisible s}.
Proof.
  induction s as [|a s [B|V]].
  - left. intros c [].
  - destruct (isWhiteSpace a) eqn:Wa.
    + left. intros c [<-|Hc]; [exact Wa|exact (B c Hc)].
    + right. exists a. split; [now left|exact Wa].
  - right. destruct V as [c [Hc Wc]]. exists c. split; [now right|exact Wc].
Qed.

Lemma visible_not_blank s : hasVisible s -> ~ blank s.
Proof.
  intros [c [Hc Wc]] B. rewrite (B c Hc) in Wc. discriminate.
Qed.

Lemma trim_length_visible s :
  (0 <? List.length (trim s))%nat = true <-> hasVisible s.
Proof.
  split.
  - intros L. destruct (blank_or_visible s) as [B|V]; [|exact V].
    apply trim_nil in B. rewrite B in L. discriminate.
  - intros V. destruct (trim s) eqn:E; [|reflexivity].
    apply trim_nil in E. now apply visible_not_blank in V.
Qed.

Lemma trim_length_blank s :
  (0 <? List.length (trim s))%nat = false <-> blank s.
Proof.
  rewrite <- trim_nil. destruct (trim s); simpl; split;
    (reflexivity || discriminate).
Qed.

(** ** Field extraction *)

Lemma extractString_passedOver source keys :
  (forall k, In k keys -> passedOver source k) ->
  extractString source keys = [].
Proof.
  induction keys as [|key rest IH]; simpl; [reflexivity|].
  intros H.
  assert (IH' : extractString source rest = [])
    by (apply IH; intros k Hk; apply H; now right).
  specialize (H key (or_introl eq_refl)). unfold passedOver in H.
  destruct (getProp source key) as [| | | |s| |]; try exact IH'.
  specialize (H s eq_refl). apply trim_length_blank in H.
  rewrite H. exact IH'.
Qed.

Lemma extractString_first source before key after value :
  (forall k, In k before -> passedOver source k) ->
  qualifies source key value ->
  extractString source (before ++ key :: after) = value.
Proof.
  intros Hb [Hv Hvis]. induction before as [|k before IH]; simpl.
  - rewrite Hv. apply trim_length_visible in Hvis. now rewrite Hvis.
  - assert (IH' : extractString source (before ++ key :: after) = value)
      by (apply IH; intros k' Hk'; apply Hb; now right).
    specialize (Hb k (or_introl eq_refl)). unfold passedOver in Hb.
    destruct (getProp source k) as [| | | |s| |]; try exact IH'.
    specialize (Hb s eq_refl). apply trim_length_blank in Hb.
    rewrite Hb. exact IH'.
Qed.

(** ** The provider client, path by path *)

Lemma startsWith_hasPrefix s p : startsWith s p = true <-> hasPrefix p s.
Proof.
  unfold hasPrefix. revert s. induction p as [|a p IH]; intros s; simpl.
  - split; [intros _; now exists s|reflexivity].
  - destruct s as [|c s].
    + split; [discriminate|]. intros [rest E]. discriminate.
    + rewrite andb_true_iff, N.eqb_eq, IH. split.
      * intros [-> [rest ->]]. now exists rest.
      * intros [rest E]. injection E as -> ->. split; [reflexivity|now exists rest].
Qed.

Lemma eqb_eq a b : JsString.eqb a b = true <-> a = b.
Proof.
  unfold JsString.eqb. destruct (list_eq_dec N.eq_dec a b); split;
    congruence.
Qed.

Lemma truthy_false s : truthy s = false <-> s = [].
Proof. destruct s; simpl; split; congruence. Qed.

Lemma truthy_true s : truthy s = true <-> s <> [].
Proof. destruct s; simpl; split; congruence. Qed.

Section ClientPaths.
Context {host : Host}.
Variables (env : Env) (net : Network) (options : Options.t).
Variables (apiKey : jsstring) (response : HttpResponse).
Hypothesis key_set : whenTruthy (VIDU_API_KEY env) = Some apiKey.
Hypothesis answered : net (buildRequest env apiKey options) = Returned response.

Lemma createViduVideo_not_ok :
  resp_ok response = false ->
  createViduVideo env net options =
    ([Fetch (buildRequest env apiKey options);
      ConsoleError (failureLine response)],
     Returned {| videoUrl := [];
                 status := failed;
                 previewImageUrl := None;
                 jobId := None;
                 rawResponse := match resp_json response with
                                | Some body => body
                                | None => VUndefined
                                end |}).
Proof.
  intros Hok. unfold createViduVideo. rewrite key_set.
  unfold bind, fetch. rewrite answered, Hok. reflexivity.
Qed.

Lemma createViduVideo_ok :
  resp_ok response = true ->
  createViduVideo env net options =
    ([Fetch (buildRequest env apiKey options)],
     Returned
       (let parsed := bodyOf response in
        let url := extractString parsed VIDEO_URL_KEYS in
        let rawStatus := extractString parsed STATUS_KEYS in
        {| videoUrl := url;
           status :=
             if truthy rawStatus then
               if startsWith (toLowerCase rawStatus) (js "complete")
               then completed
               else if startsWith (toLowerCase rawStatus) (js "fail")
                       || JsString.eqb (toLowerCase rawStatus) (js "error")
                    then failed else queued
             else if truthy url then completed else queued;
           previewImageUrl := Some (extractString parsed PREVIEW_KEYS);
           jobId := Some (extractString parsed JOB_ID_KEYS);
           rawResponse := parsed |})).
Proof.
  intros Hok. unfold createViduVideo. rewrite key_set.
  unfold bind, fetch. rewrite answered, Hok. cbn [negb].
  unfold bodyOf. destruct (resp_json response) as [body|]; reflexivity.
Qed.

End ClientPaths.

(** ** The results of the provider client *)

(** C1. On a success response the status is read off the raw status
    text when the body supplies one: lower-cased, a text starting with
    [complete] gives [completed], a text starting with [fail] or equal to
    [error] gives [failed], any other text gives [queued].  Without a raw
    status the result is [completed] when a video URL was extracted and
    [queued] otherwise. *)
Theorem createViduVideo_status_mapping
  {host : Host} (env : Env) (net : Network) (options : Options.t)
  (apiKey : jsstring) (response : HttpResponse) :
  whenTruthy (VIDU_API_KEY env) = Some apiKey ->
  net (buildRequest env apiKey options) = Returned response ->
  resp_ok response = true ->
  exists result,
    outcome (createViduVideo env net options) = Returned result
    /\ videoUrl result = extractString (bodyOf response) VIDEO_URL_KEYS
    /\ (forall raw, qualifies (bodyOf response) (js "status") raw ->
          let normalized := toLowerCase raw in
          (hasPrefix (js "complete") normalized -> status result = completed)
          /\ (hasPrefix (js "fail") normalized \/ normalized = js "error" ->
              status result = failed)
          /\ (~ hasPrefix (js "complete") normalized ->
              ~ hasPrefix (js "fail") normalized ->
              normalized <> js "error" ->
              status result = queued))
    /\ (passedOver (bodyOf response) (js "status") ->
          (videoUrl result <> [] -> status result = completed)
          /\ (videoUrl result = [] -> status result = queued)).
Proof.
  intros Hkey Hnet Hok.
  rewrite (createViduVideo_ok env net options apiKey response Hkey Hnet Hok).
  eexists. split; [reflexivity|]. cbn [videoUrl status].
  split; [reflexivity|]. split.
  - intros raw Hq. set (normalized := toLowerCase raw).
    assert (Eraw : extractString (bodyOf response) STATUS_KEYS = raw)
      by exact (extractString_first (bodyOf response) [] (js "status") []
                  raw (fun k (F : In k []) => match F with end) Hq).
    rewrite Eraw. fold normalized.
    assert (Traw : truthy raw = true).
    { destruct Hq as [_ [c [Hc _]]]. now destruct raw. }
    rewrite Traw.
    destruct (startsWith normalized (js "complete")) eqn:Sc.
    + apply startsWith_hasPrefix in Sc. repeat split; try reflexivity.
      * intros [[rest Hf]|He]; destruct Sc as [rest' Hc];
          rewrite Hc in *; discriminate.
      * intros Hn. now elim Hn.
    + assert (Nc : ~ hasPrefix (js "complete") normalized).
      { intros Hc. apply startsWith_hasPrefix in Hc. congruence. }
      destruct (startsWith normalized (js "fail")) eqn:Sf; cbn [orb].
      * apply startsWith_hasPrefix in Sf. repeat split; try reflexivity.
        -- intros Hc. now elim Nc.
        -- intros _ Hn. now elim Hn.
      * assert (Nf : ~ hasPrefix (js "fail") normalized).
        { intros Hf. apply startsWith_hasPrefix in Hf. congruence. }
        destruct (JsString.eqb normalized (js "error")) eqn:Se.
        -- apply eqb_eq in Se. repeat split; try reflexivity.
           ++ intros Hc. now elim Nc.
           ++ intros _ _ Hn. now elim Hn.
        -- assert (Ne : normalized <> js "error").
           { intros He. apply eqb_eq in He. congruence. }
           repeat split; try reflexivity.
           ++ intros Hc. now elim Nc.
           ++ intros [Hf|He]; [now elim Nf|now elim Ne].
  - intros Hp.
    assert (Eraw : extractString (bodyOf response) STATUS_KEYS = []).
    { apply extractString_passedOver. intros k [<-|[]]. exact Hp. }
    rewrite Eraw. cbn [truthy].
    destruct (extractString (bodyOf response) VIDEO_URL_KEYS);
      split; intros H; try reflexivity; congruence.
Qed.

Lemma createViduVideo_status_mapping_witness :
  exists result,
    outcome (createViduVideo (host := ReferenceHost.host) env_ex
               (respond (response_ex 200 (Some body_failed_timeout)))
               options_ex)
    = Returned result
    /\ status result = failed.
Proof.
  destruct (createViduVideo_status_mapping (host := ReferenceHost.host)
              env_ex (respond (response_ex 200 (Some body_failed_timeout)))
              options_ex (js "secret")
              (response_ex 200 (Some body_failed_timeout))
              eq_refl eq_refl eq_refl)
    as [result [Hout [_ [Hraw _]]]].
  exists result. split; [exact Hout|].
  apply (Hraw (js "FAILED_TIMEOUT")).
  - split; [reflexivity|]. exists 70%N. split; [now left|reflexivity].
  - left. exists (js "ed_timeout"). reflexivity.
Defined.

(** The three bodies the specification lists, on any host: the raw
    status texts are ASCII, where lower-casing is fixed. *)
Example status_of_listed_bodies {host : Host} :
  let run body :=
    outcome (createViduVideo env_ex (respond (response_ex 200 (Some body)))
               options_ex) in
  (exists r, run body_failed_timeout = Returned r /\ status r = failed)
  /\ (exists r, run body_processing = Returned r /\ status r = queued
                /\ videoUrl r = [])
  /\ (exists r, run body_video_only = Returned r /\ status r = completed
                /\ videoUrl r = js "https://x/y.mp4").
Proof.
  intros run. subst run. cbn beta.
  repeat split.
  - rewrite (createViduVideo_ok env_ex _ options_ex (js "secret")
               (response_ex 200 (Some body_failed_timeout))
               eq_refl eq_refl eq_refl).
    eexists. split; [reflexivity|]. cbn [status].
    change (extractString (bodyOf (response_ex 200 (Some body_failed_timeout)))
              STATUS_KEYS) with (js "FAILED_TIMEOUT").
    rewrite (toLowerCase_ascii (js "FAILED_TIMEOUT") eq_refl). reflexivity.
  - rewrite (createViduVideo_ok env_ex _ options_ex (js "secret")
               (response_ex 200 (Some body_processing))
               eq_refl eq_refl eq_refl).
    eexists. split; [reflexivity|]. cbn [status videoUrl].
    change (extractString (bodyOf (response_ex 200 (Some body_processing)))
              STATUS_KEYS) with (js "Processing").
    rewrite (toLowerCase_ascii (js "Processing") eq_refl).
    split; reflexivity.
  - rewrite (createViduVideo_ok env_ex _ options_ex (js "secret")
               (response_ex 200 (Some body_video_only))
               eq_refl eq_refl eq_refl).
    eexists. split; [reflexivity|]. split; reflexivity.
Qed.

(** C2. On a response whose status is outside the success range the call
    does not raise: it returns the empty video URL, the status [failed],
    and as raw response the parsed body, or [undefined] when the body could
    not be parsed. *)
Theorem createViduVideo_http_failure
  {host : Host} (env : Env) (net : Network) (options : Options.t)
  (apiKey : jsstring) (response : HttpResponse) :
  whenTruthy (VIDU_API_KEY env) = Some apiKey ->
  net (buildRequest env apiKey options) = Returned response ->
  resp_ok response = false ->
  exists result,
    outcome (createViduVideo env net options) = Returned result
    /\ videoUrl result = []
    /\ status result = failed
    /\ (forall body, resp_json response = Some body ->
                     rawResponse result = body)
    /\ (resp_json response = None -> rawResponse result = VUndefined).
Proof.
  intros Hkey Hnet Hok.
  rewrite (createViduVideo_not_ok env net options apiKey response
             Hkey Hnet Hok).
  eexists. split; [reflexivity|]. cbn [videoUrl status rawResponse].
  repeat split.
  - intros body ->. reflexivity.
  - intros ->. reflexivity.
Qed.

Lemma createViduVideo_http_failure_witness :
  exists result,
    outcome (createViduVideo (host := ReferenceHost.host) env_ex
               (respond (response_ex 500 None)) options_ex)
    = Returned result
    /\ videoUrl result = []
    /\ status result = failed
    /\ (forall body, resp_json (response_ex 500 None) = Some body ->
                     rawResponse result = body)
    /\ (resp_json (response_ex 500 None) = None ->
        rawResponse result = VUndefined).
Proof.
  exact (createViduVideo_http_failure (host := ReferenceHost.host)
           env_ex (respond (response_ex 500 None)) options_ex (js "secret")
           (response_ex 500 None) eq_refl eq_refl eq_refl).
Defined.

(** C9. Without [VIDU_API_KEY] in the environment the call raises the
    configuration error, and its trace holds no request. *)
Theorem createViduVideo_missing_key
  {host : Host} (env : Env) (net : Network) (options : Options.t) :
  VIDU_API_KEY env = None ->
  outcome (createViduVideo env net options) = Threw (Error MSG_MISSING_KEY)
  /\ requestsOf (trace (createViduVideo env net options)) = [].
Proof.
  intros Hkey. unfold createViduVideo. rewrite Hkey. split; reflexivity.
Qed.

Lemma createViduVideo_missing_key_witness :
  outcome (createViduVideo (host := ReferenceHost.host)
             {| VIDU_API_KEY := None; VIDU_API_URL := None |}
             (respond (response_ex 200 None)) options_ex)
  = Threw (Error MSG_MISSING_KEY)
  /\ requestsOf (trace (createViduVideo (host := ReferenceHost.host)
                          {| VIDU_API_KEY := None; VIDU_API_URL := None |}
                          (respond (response_ex 200 None)) options_ex)) = [].
Proof.
  exact (createViduVideo_missing_key (host := ReferenceHost.host)
           {| VIDU_API_KEY := None; VIDU_API_URL := None |}
           (respond (response_ex 200 None)) options_ex eq_refl).
Defined.

Lemma extractString_nil source keys :
  extractString source keys = [] ->
  forall k, In k keys -> passedOver source k.
Proof.
  induction keys as [|key rest IH]; simpl; [intros _ k []|].
  intros E k Hk s Hs.
  destruct (getProp source key) as [| | | |v| |] eqn:G;
    try (destruct Hk as [<-|Hk]; [congruence|exact (IH E k Hk s Hs)]).
  destruct (0 <? List.length (trim v))%nat eqn:L.
  - apply trim_length_visible in L. destruct L as [c [Hc _]].
    rewrite E in Hc. destruct Hc.
  - destruct Hk as [<-|Hk]; [|exact (IH E k Hk s Hs)].
    apply trim_length_blank in L. rewrite G in Hs.
    injection Hs as <-. exact L.
Qed.

(** C10. Field extraction answers the value of the first candidate key
    that holds a string with a code unit other than white space, as it is
    (surrounding white space kept); keys that hold something else or a
    blank string are passed over, and the answer is the empty string when no
    key qualifies.  Hence on a success response the preview image URL and
    the job id are always present as strings. *)
Theorem extractString_first_qualifying {host : Host} :
  (forall source before key after value,
      (forall k, In k before -> passedOver source k) ->
      qualifies source key value ->
      extractString source (before ++ key :: after) = value)
  /\ (forall source keys,
         (forall k, In k keys -> passedOver source k) ->
         extractString source keys = [])
  /\ (forall env net options apiKey response,
         whenTruthy (VIDU_API_KEY env) = Some apiKey ->
         net (buildRequest env apiKey options) = Returned response ->
         resp_ok response = true ->
         exists result,
           outcome (createViduVideo env net options) = Returned result
           /\ previewImageUrl result
              = Some (extractString (bodyOf response) PREVIEW_KEYS)
           /\ jobId result
              = Some (extractString (bodyOf response) JOB_ID_KEYS)).
Proof.
  split; [exact extractString_first|].
  split; [exact extractString_passedOver|].
  intros env net options apiKey response Hkey Hnet Hok.
  rewrite (createViduVideo_ok env net options apiKey response Hkey Hnet Hok).
  eexists. repeat split.
Qed.

Lemma extractString_first_qualifying_witness :
  extractString body_job_ids JOB_ID_KEYS = js " j1 "
  /\ extractString body_job_ids PREVIEW_KEYS = []
  /\ exists result,
       outcome (createViduVideo (host := ReferenceHost.host) env_ex
                  (respond (response_ex 200 (Some body_job_ids))) options_ex)
       = Returned result
       /\ previewImageUrl result = Some []
       /\ jobId result = Some (js " j1 ").
Proof.
  destruct (extractString_first_qualifying (host := ReferenceHost.host))
    as [Hfirst [Hnone Hfields]].
  split; [|split].
  - apply (Hfirst body_job_ids [js "job_id"; js "jobId"] (js "id") []).
    + intros k [<-|[<-|[]]] s E; [discriminate|].
      injection E as <-. intros c [<-|[<-|[]]]; reflexivity.
    + split; [reflexivity|]. exists 106%N. split; [right; now left|reflexivity].
  - apply Hnone. intros k [<-|[<-|[<-|[<-|[]]]]] s E; discriminate.
  - exact (Hfields env_ex (respond (response_ex 200 (Some body_job_ids)))
             options_ex (js "secret") (response_ex 200 (Some body_job_ids))
             eq_refl eq_refl eq_refl).
Defined.

(** C3, as stated, fails: the body [{"status": "Processing"}] on a 200
    response gives an empty video URL with the status [queued]. *)
Lemma empty_videoUrl_with_queued_status :
  exists result,
    outcome (createViduVideo (host := ReferenceHost.host) env_ex
               (respond (response_ex 200 (Some body_processing))) options_ex)
    = Returned result
    /\ videoUrl result = []
    /\ status result <> failed.
Proof.
  eexists. split; [reflexivity|]. split; [reflexivity|discriminate].
Qed.

(** C3, amended. Outside the success range the video URL is empty and
    the status is [failed].  On a success response the video URL is empty
    exactly when no candidate key holds a string that is not blank; when
    the body supplies no raw status either, an empty video URL goes with
    [queued] and a non-empty one with [completed]. *)
Theorem videoUrl_empty_cases
  {host : Host} (env : Env) (net : Network) (options : Options.t)
  (apiKey : jsstring) (response : HttpResponse) :
  whenTruthy (VIDU_API_KEY env) = Some apiKey ->
  net (buildRequest env apiKey options) = Returned response ->
  exists result,
    outcome (createViduVideo env net options) = Returned result
    /\ (resp_ok response = false ->
        videoUrl result = [] /\ status result = failed)
    /\ (resp_ok response = true ->
        (videoUrl result = [] <->
         forall k, In k VIDEO_URL_KEYS -> passedOver (bodyOf response) k)
        /\ (passedOver (bodyOf response) (js "status") ->
            (videoUrl result = [] <-> status result = queued)
            /\ (videoUrl result <> [] <-> status result = completed))).
Proof.
  intros Hkey Hnet. destruct (resp_ok response) eqn:Hok.
  - rewrite (createViduVideo_ok env net options apiKey response Hkey Hnet Hok).
    eexists. split; [reflexivity|]. cbn [videoUrl status].
    split; [discriminate|]. intros _. split.
    + split; [apply extractString_nil|apply extractString_passedOver].
    + intros Hp.
      assert (Eraw : extractString (bodyOf response) STATUS_KEYS = []).
      { apply extractString_passedOver. intros k [<-|[]]. exact Hp. }
      rewrite Eraw. cbn [truthy].
      destruct (extractString (bodyOf response) VIDEO_URL_KEYS); cbn [truthy];
        repeat split; intros; congruence.
  - rewrite (createViduVideo_not_ok env net options apiKey response
               Hkey Hnet Hok).
    eexists. split; [reflexivity|]. cbn [videoUrl status].
    split; [intros _; split; reflexivity|discriminate].
Qed.

Lemma videoUrl_empty_cases_witness :
  exists result,
    outcome (createViduVideo (host := ReferenceHost.host) env_ex
               (respond (response_ex 200 (Some body_video_only))) options_ex)
    = Returned result
    /\ videoUrl result <> []
    /\ status result = completed.
Proof.
  destruct (videoUrl_empty_cases (host := ReferenceHost.host) env_ex
              (respond (response_ex 200 (Some body_video_only))) options_ex
              (js "secret") (response_ex 200 (Some body_video_only))
              eq_refl eq_refl)
    as [result [Hout [_ Hok]]].
  destruct (Hok eq_refl) as [Hurl Hstatus].
  assert (Hp : passedOver (bodyOf (response_ex 200 (Some body_video_only)))
                 (js "status")) by (intros s E; discriminate).
  destruct (Hstatus Hp) as [_ Hcompleted].
  assert (Hne : videoUrl result <> []).
  { intros E.
    pose proof (proj1 Hurl E (js "video_url") (or_introl eq_refl)
                  (js "https://x/y.mp4") eq_refl 104%N (or_introl eq_refl))
      as W.
    discriminate W. }
  exists result. split; [exact Hout|]. split; [exact Hne|].
  apply Hcompleted. exact Hne.
Defined.

(** C4, as stated, fails on the failure path: a 500 response whose body
    is not JSON gives [undefined] as raw response, not the empty object. *)
Lemma rawResponse_undefined_on_unparsed_failure :
  exists result,
    outcome (createViduVideo (host := ReferenceHost.host) env_ex
               (respond (response_ex 500 None)) options_ex)
    = Returned result
    /\ rawResponse result = VUndefined
    /\ rawResponse result <> VObject [].
Proof.
  eexists. split; [reflexivity|]. split; [reflexivity|discriminate].
Qed.

(** C4, amended. On a success response the raw response is the parsed
    body, with the empty object in its place when parsing failed or the
    body is [null]; outside the success range it is the parsed body, and
    [undefined] when parsing failed. *)
Theorem rawResponse_by_path
  {host : Host} (env : Env) (net : Network) (options : Options.t)
  (apiKey : jsstring) (response : HttpResponse) :
  whenTruthy (VIDU_API_KEY env) = Some apiKey ->
  net (buildRequest env apiKey options) = Returned response ->
  exists result,
    outcome (createViduVideo env net options) = Returned result
    /\ (resp_ok response = true ->
        (forall body, resp_json response = Some body -> nullish body = false ->
                      rawResponse result = body)
        /\ (resp_json response = None -> rawResponse result = VObject [])
        /\ (resp_json response = Some VNull -> rawResponse result = VObject []))
    /\ (resp_ok response = false ->
        (forall body, resp_json response = Some body ->
                      rawResponse result = body)
        /\ (resp_json response = None -> rawResponse result = VUndefined)).
Proof.
  intros Hkey Hnet. destruct (resp_ok response) eqn:Hok.
  - rewrite (createViduVideo_ok env net options apiKey response Hkey Hnet Hok).
    eexists. split; [reflexivity|]. cbn [rawResponse]. unfold bodyOf.
    split; [intros _|discriminate]. repeat split.
    + intros body -> ->. reflexivity.
    + intros ->. reflexivity.
    + intros ->. reflexivity.
  - rewrite (createViduVideo_not_ok env net options apiKey response
               Hkey Hnet Hok).
    eexists. split; [reflexivity|]. cbn [rawResponse].
    split; [discriminate|intros _]. split.
    + intros body ->. reflexivity.
    + intros ->. reflexivity.
Qed.

Lemma rawResponse_by_path_witness :
  exists result,
    outcome (createViduVideo (host := ReferenceHost.host) env_ex
               (respond (response_ex 200 (Some body_processing))) options_ex)
    = Returned result
    /\ rawResponse result = body_processing.
Proof.
  destruct (rawResponse_by_path (host := ReferenceHost.host) env_ex
              (respond (response_ex 200 (Some body_processing))) options_ex
              (js "secret") (response_ex 200 (Some body_processing))
              eq_refl eq_refl)
    as [result [Hout [Hok _]]].
  exists result. split; [exact Hout|].
  exact (proj1 (Hok eq_refl) body_processing eq_refl eq_refl).
Defined.

(** ** Prompt resolution *)

(** C7. A base64 text that decodes to a text that is not blank is the
    resolved prompt, whatever the plain prompt field holds. *)
Theorem resolvePrompt_prefers_base64
  {host : Host} (s text : jsstring) (plain : option jsstring)
  (duration : option number) (ratio style reference : option jsstring) :
  decodeBase64Utf8 s = Returned text ->
  hasVisible text ->
  resolvePrompt (Input.Build plain (Some s) duration ratio style reference)
  = Returned text.
Proof.
  intros Hdec Hvis. unfold resolvePrompt. cbn [Input.promptBase64].
  destruct s as [|c s].
  - rewrite decodeBase64Utf8_empty in Hdec. injection Hdec as <-.
    destruct Hvis as [c [[] _]].
  - cbn [whenTruthy]. unfold decodePrompt. rewrite Hdec.
    apply trim_length_visible in Hvis.
    destruct (List.length (trim text)); [discriminate|reflexivity].
Qed.

Lemma resolvePrompt_prefers_base64_witness :
  resolvePrompt (host := ReferenceHost.host)
    (Input.Build (Some (js "a plain prompt")) (Some (js "aGkgdGhlcmU="))
       None None None None)
  = Returned (js "hi there").
Proof.
  apply (resolvePrompt_prefers_base64 (host := ReferenceHost.host)).
  - reflexivity.
  - exists 104%N. split; [now left|reflexivity].
Defined.

(** A present, non-empty [promptBase64] never ends in the missing-prompt
    error: it is decoded, and what can fail is the decoding. *)
Lemma resolvePrompt_base64_not_missing
  {host : Host} (input : Input.t) (encoded : jsstring) :
  whenTruthy (Input.promptBase64 input) = Some encoded ->
  resolvePrompt input <> Threw (Error MSG_MISSING_PROMPT).
Proof.
  intros H. unfold resolvePrompt. rewrite H.
  destruct (decodePrompt encoded) as [decoded|e]; discriminate.
Qed.

(** C8, as stated, fails: with no [prompt] and a [promptBase64] of one
    space both fields are absent or blank, and the error raised is the
    decoding error. *)
Lemma blank_promptBase64_raises_decode_error :
  outcome (generateViduVideo (host := ReferenceHost.host) env_ex
             (respond (response_ex 200 None))
             (Input.Build None (Some (js " ")) None None None None))
  = Threw (Error (MSG_DECODE_FAILED ++ MSG_DECODED_EMPTY))
  /\ Threw (A := ViduVideoResult) (Error (MSG_DECODE_FAILED ++ MSG_DECODED_EMPTY))
     <> Threw (Error MSG_MISSING_PROMPT).
Proof.
  split; [reflexivity|discriminate].
Qed.

(** C8, amended. When [promptBase64] is absent or empty and [prompt] is
    absent or blank, the tool raises the missing-prompt error and sends no
    request. *)
Theorem generateViduVideo_missing_prompt
  {host : Host} (env : Env) (net : Network) (input : Input.t) :
  Input.promptBase64 input = None \/ Input.promptBase64 input = Some [] ->
  Input.prompt input = None
  \/ (exists p, Input.prompt input = Some p /\ blank p) ->
  resolvePrompt input = Threw (Error MSG_MISSING_PROMPT)
  /\ outcome (generateViduVideo env net input)
     = Threw (Error MSG_MISSING_PROMPT)
  /\ requestsOf (trace (generateViduVideo env net input)) = [].
Proof.
  intros H64 Hplain.
  assert (R : resolvePrompt input = Threw (Error MSG_MISSING_PROMPT)).
  { unfold resolvePrompt.
    assert (W : whenTruthy (Input.promptBase64 input) = None)
      by (destruct H64 as [-> | ->]; reflexivity).
    rewrite W. destruct Hplain as [-> | [p [-> B]]]; [reflexivity|].
    apply trim_length_blank in B. now rewrite B. }
  unfold generateViduVideo. rewrite R. repeat split.
Qed.

Lemma generateViduVideo_missing_prompt_witness :
  let input := Input.Build (Some (js "  ")) (Some []) None None None None in
  outcome (generateViduVideo (host := ReferenceHost.host) env_ex
             (respond (response_ex 200 None)) input)
  = Threw (Error MSG_MISSING_PROMPT)
  /\ requestsOf (trace (generateViduVideo (host := ReferenceHost.host) env_ex
                          (respond (response_ex 200 None)) input)) = [].
Proof.
  intros input.
  refine (proj2 (generateViduVideo_missing_prompt (host := ReferenceHost.host)
                   env_ex (respond (response_ex 200 None)) input _ _)).
  - right. reflexivity.
  - right. exists (js "  "). split; [reflexivity|].
    intros c [<-|[<-|[]]]; reflexivity.
Defined.

(** Under the schema of the tool a [promptBase64] is never blank, so there
    the missing-prompt error is raised whenever both fields are absent or
    blank. *)
Lemma isBase64Char_visible c : isBase64Char c = true -> isWhiteSpace c = false.
Proof.
  unfold isBase64Char, isWhiteSpace. intros H.
  repeat (apply orb_true_iff in H; destruct H as [H|H]);
    repeat (apply andb_true_iff in H; destruct H as [H H']);
    rewrite ?N.leb_le, ?N.eqb_eq in *;
    repeat (apply orb_false_iff; split);
    rewrite ?andb_false_iff, ?N.leb_gt, ?N.eqb_neq; lia.
Qed.

Lemma generateViduVideo_missing_prompt_under_schema
  {host : Host} (env : Env) (net : Network) (input : Input.t) :
  schemaAcceptsPrompts input = true ->
  Input.promptBase64 input = None
  \/ (exists s, Input.promptBase64 input = Some s /\ blank s) ->
  Input.prompt input = None
  \/ (exists p, Input.prompt input = Some p /\ blank p) ->
  outcome (generateViduVideo env net input) = Threw (Error MSG_MISSING_PROMPT)
  /\ requestsOf (trace (generateViduVideo env net input)) = [].
Proof.
  intros Hschema H64 Hplain.
  assert (Habsent : Input.promptBase64 input = None).
  { destruct H64 as [H|[s [Hs B]]]; [exact H|]. exfalso.
    unfold schemaAcceptsPrompts in Hschema. rewrite Hs in Hschema.
    apply andb_true_iff in Hschema. destruct Hschema as [_ Hschema].
    apply andb_true_iff in Hschema. destruct Hschema as [Hlen Hall].
    destruct s as [|c s]; [discriminate|].
    cbn [forallb] in Hall. apply andb_true_iff in Hall.
    destruct Hall as [Hc _]. apply isBase64Char_visible in Hc.
    rewrite (B c (or_introl eq_refl)) in Hc. discriminate. }
  assert (R : resolvePrompt input = Threw (Error MSG_MISSING_PROMPT)).
  { unfold resolvePrompt. rewrite Habsent. cbn [whenTruthy].
    destruct Hplain as [-> | [p [-> B]]]; [reflexivity|].
    apply trim_length_blank in B. now rewrite B. }
  unfold generateViduVideo. rewrite R. split; reflexivity.
Qed.

(** * Further properties *)

(** ** What sanitization keeps *)

Lemma visibleUnits_nil s : visibleUnits s = [] <-> blank s.
Proof.
  unfold visibleUnits, blank. induction s as [|a s IH]; simpl.
  - split; [intros _ c []|reflexivity].
  - destruct (isWhiteSpace a) eqn:Wa; simpl.
    + rewrite IH. split.
      * intros H c [<-|Hc]; [exact Wa|exact (H c Hc)].
      * intros H c Hc. apply H. now right.
    + split; [discriminate|]. intros H.
      rewrite (H a (or_introl eq_refl)) in Wa. discriminate.
Qed.

Lemma visibleUnits_replaceSeparators s :
  visibleUnits (replaceSeparators s) = visibleUnits s.
Proof.
  unfold visibleUnits, replaceSeparators.
  induction s as [|c s IH]; simpl; [reflexivity|]. rewrite IH.
  destruct (N.eqb_spec c LINE_SEPARATOR) as [->|_]; [reflexivity|].
  destruct (N.eqb_spec c PARAGRAPH_SEPARATOR) as [->|_]; reflexivity.
Qed.

Lemma visibleUnits_replaceNewlines s :
  visibleUnits (replaceNewlines s) = visibleUnits s.
Proof.
  assert (H : forall n s, (List.length s <= n)%nat ->
                visibleUnits (replaceNewlines s) = visibleUnits s).
  { clear s. induction n as [|n IH]; intros s L.
    - destruct s; [reflexivity|simpl in L; lia].
    - destruct s as [|c s]; [reflexivity|]. cbn [replaceNewlines].
      simpl in L.
      destruct (N.eqb_spec c LF) as [->|_].
      + unfold visibleUnits at 1 2. simpl. apply IH. lia.
      + destruct s as [|d s]; [reflexivity|].
        destruct (N.eqb_spec c CR) as [->|_];
          destruct (N.eqb_spec d LF) as [->|_]; cbn [andb].
        * unfold visibleUnits at 1 2. simpl. apply IH. simpl in L. lia.
        * unfold visibleUnits at 1 2. cbn [filter].
          f_equal. apply IH. lia.
        * unfold visibleUnits at 1 2. cbn [filter].
          fold (visibleUnits (replaceNewlines (LF :: s))).
          fold (visibleUnits (LF :: s)).
          rewrite (IH (LF :: s)) by lia. reflexivity.
        * unfold visibleUnits at 1 2. cbn [filter].
          fold (visibleUnits (replaceNewlines (d :: s))).
          fold (visibleUnits (d :: s)).
          rewrite (IH (d :: s)) by lia. reflexivity. }
  exact (H (List.length s) s (le_n _)).
Qed.

Lemma visibleUnits_collapseFrom s : forall inRun,
  visibleUnits (collapseFrom inRun s) = visibleUnits s.
Proof.
  unfold visibleUnits. induction s as [|c s IH]; intros inRun; simpl;
    [reflexivity|].
  destruct (isWhiteSpace c) eqn:Wc; simpl.
  - destruct inRun; simpl; apply IH.
  - rewrite Wc. simpl. f_equal. apply IH.
Qed.

Lemma visibleUnits_trimStart s : visibleUnits (trimStart s) = visibleUnits s.
Proof.
  unfold visibleUnits. induction s as [|c s IH]; simpl; [reflexivity|].
  destruct (isWhiteSpace c) eqn:Wc; simpl; [exact IH|].
  now rewrite Wc.
Qed.

Lemma visibleUnits_trimEnd s : visibleUnits (trimEnd s) = visibleUnits s.
Proof.
  unfold visibleUnits. induction s as [|c s IH]; simpl; [reflexivity|].
  rewrite <- IH.
  destruct (trimEnd s) as [|d u]; simpl.
  - destruct (isWhiteSpace c) eqn:Wc; simpl; [reflexivity|now rewrite Wc].
  - reflexivity.
Qed.

Lemma visibleUnits_sanitized raw :
  visibleUnits (cleanPromptForVidu raw) = visibleUnits raw.
Proof.
  unfold cleanPromptForVidu, trim, collapseWhitespace.
  rewrite visibleUnits_trimEnd, visibleUnits_trimStart,
    visibleUnits_collapseFrom, visibleUnits_replaceNewlines.
  apply visibleUnits_replaceSeparators.
Qed.

Lemma sanitized_nil_iff raw : cleanPromptForVidu raw = [] <-> blank raw.
Proof.
  rewrite <- visibleUnits_nil, <- visibleUnits_sanitized. split.
  - intros ->. reflexivity.
  - intros V. apply visibleUnits_nil in V.
    destruct (cleanPromptForVidu raw) as [|c r] eqn:E; [reflexivity|].
    pose proof (trim_noOuterWhitespace
                  (collapseWhitespace (replaceNewlines (replaceSeparators raw))))
      as [Hh _].
    fold (cleanPromptForVidu raw) in Hh. rewrite E in Hh.
    specialize (Hh c r eq_refl).
    rewrite (V c (or_introl eq_refl)) in Hh. discriminate.
Qed.

(** X1. Sanitization touches white space only: the code units that are
    not white space come out as they went in, in the same order. *)
Theorem cleanPromptForVidu_keeps_visible (raw : jsstring) :
  visibleUnits (cleanPromptForVidu raw) = visibleUnits raw.
Proof. exact (visibleUnits_sanitized raw). Qed.

(** X2. The sanitized prompt is empty exactly when the raw prompt is empty
    or white space only. *)
Theorem cleanPromptForVidu_empty_iff_blank (raw : jsstring) :
  cleanPromptForVidu raw = [] <-> blank raw.
Proof. exact (sanitized_nil_iff raw). Qed.

(** X3. The prompts that sanitization leaves unchanged are exactly the
    single-spaced ones without white space at either end. *)
Theorem cleanPromptForVidu_fixed_points (s : jsstring) :
  cleanPromptForVidu s = s <-> singleSpaced s /\ noOuterWhitespace s.
Proof.
  split.
  - intros E. rewrite <- E. split.
    + apply cleanPromptForVidu_singleSpaced.
    + apply trim_noOuterWhitespace.
  - intros [Hs Ho].
    unfold cleanPromptForVidu, collapseWhitespace.
    rewrite (replaceSeparators_fixed s), (replaceNewlines_fixed s).
    + rewrite (collapseFrom_fixed s false Hs); [|discriminate].
      exact (trim_fixed s Ho).
    + apply singleSpaced_excludes; [exact Hs|reflexivity|discriminate].
    + apply singleSpaced_excludes; [exact Hs|reflexivity|discriminate].
    + apply singleSpaced_excludes; [exact Hs|reflexivity|discriminate].
Qed.

(** ** The duration after normalization *)

Lemma clampDuration_not_positive x :
  isFinite x = true ->
  (forall m e, x <> S754_finite false m e) ->
  clampDuration (Some x) = MIN_DURATION_SECONDS.
Proof.
  intros F Hn. rewrite (clampDuration_finite x F).
  destruct x as [s|s| |s m e]; try discriminate F; [reflexivity|].
  destruct s; [reflexivity|]. now elim (Hn m e).
Qed.

Lemma clampDuration_default x :
  isFinite x = false -> clampDuration (Some x) = DEFAULT_DURATION_SECONDS.
Proof.
  intros F. unfold clampDuration. rewrite F. cbn [negb].
  now rewrite orb_true_r.
Qed.

Lemma positive_or_not (x : number) :
  {me : positive * Z | x = S754_finite false (fst me) (snd me)}
  + {forall m e, x <> S754_finite false m e}.
Proof.
  destruct x as [s|s| |[|] m e]; try (right; discriminate).
  left. now exists (m, e).
Qed.

Lemma clampDuration_bounds value :
  SFleb MIN_DURATION_SECONDS (clampDuration value) = true
  /\ SFleb (clampDuration value) MAX_DURATION_SECONDS = true.
Proof.
  destruct value as [x|]; [|split; reflexivity].
  destruct (isFinite x) eqn:F.
  - destruct (positive_or_not x) as [[[m e] ->]|Hn].
    + rewrite (clampDuration_finite _ F).
      exact (proj2 (proj2 (proj2 (clamp_positive m e)))).
    + rewrite (clampDuration_not_positive x F Hn). split; reflexivity.
  - rewrite (clampDuration_default x F). split; reflexivity.
Qed.

(** X4. Whatever the caller supplies, also nothing, a NaN or an infinity,
    the duration handed on lies between 1 and 8. *)
Theorem clampDuration_always_in_range (value : option number) :
  SFleb (literal 1 0) (clampDuration value) = true
  /\ SFleb (clampDuration value) (literal 8 0) = true.
Proof. exact (clampDuration_bounds value). Qed.

(** X5. Clamping is idempotent: a clamped duration is left as it is. *)
Theorem clampDuration_idempotent (value : option number) :
  clampDuration (Some (clampDuration value)) = clampDuration value.
Proof.
  destruct value as [x|]; [|reflexivity].
  destruct (isFinite x) eqn:F.
  - destruct (positive_or_not x) as [[[m e] ->]|Hn].
    + cbn [fst snd] in *.
      pose proof (clampDuration_finite _ F) as E. cbn zeta in E.
      destruct (SFltb MIN_DURATION_SECONDS (S754_finite false m e)) eqn:Lo.
      * destruct (SFltb (S754_finite false m e) MAX_DURATION_SECONDS) eqn:Hi.
        -- rewrite E. exact E.
        -- rewrite E. reflexivity.
      * destruct (SFltb MIN_DURATION_SECONDS MAX_DURATION_SECONDS);
          rewrite E; reflexivity.
    + rewrite (clampDuration_not_positive x F Hn). reflexivity.
  - rewrite (clampDuration_default x F). reflexivity.
Qed.

Lemma SFleb_from_positive m e y :
  isFinite y = true ->
  SFleb (S754_finite false m e) y = true ->
  exists m' e', y = S754_finite false m' e'.
Proof.
  intros F L. destruct y as [s|s| |[|] m' e']; try discriminate.
  now exists m', e'.
Qed.

(** X6. Clamping keeps the order of finite durations. *)
Theorem clampDuration_monotone (x y : number) :
  isFinite x = true -> isFinite y = true ->
  SFleb x y = true ->
  SFleb (clampDuration (Some x)) (clampDuration (Some y)) = true.
Proof.
  intros Fx Fy L.
  destruct (positive_or_not x) as [[[m e] ->]|Hn].
  - cbn [fst snd] in *.
    destruct (SFleb_from_positive m e y Fy L) as [m' [e' ->]].
    rewrite (clampDuration_finite _ Fx), (clampDuration_finite _ Fy).
    cbn zeta. revert L.
    rewrite MIN_DURATION_SECONDS_value, MAX_DURATION_SECONDS_value.
    generalize 4503599627370496%positive; intros k.
    rewrite !SFltb_positive, !SFleb_positive.
    destruct ((-52 <? e)%Z || (-52 =? e)%Z && (k <? m)%positive) eqn:Lo;
      destruct ((-52 <? e')%Z || (-52 =? e')%Z && (k <? m')%positive) eqn:Lo';
      rewrite ?SFltb_positive, ?SFleb_positive;
      change (-52 <? -49)%Z with true; cbn [orb];
      try (destruct ((e <? -49)%Z || (e =? -49)%Z && (m <? k)%positive) eqn:Hi);
      try (destruct ((e' <? -49)%Z || (e' =? -49)%Z && (m' <? k)%positive)
             eqn:Hi');
      rewrite ?SFltb_positive, ?SFleb_positive;
      order_solve.
  - rewrite (clampDuration_not_positive x Fx Hn).
    exact (proj1 (clampDuration_bounds (Some y))).
Qed.

Lemma clampDuration_monotone_witness :
  SFleb (clampDuration (Some (literal 3 0)))
        (clampDuration (Some (literal 17 (-1)))) = true.
Proof.
  apply clampDuration_monotone; reflexivity.
Defined.

(** ** The provider client: when it raises and what it sends *)

Lemma createViduVideo_no_key {host : Host} env net options :
  whenTruthy (VIDU_API_KEY env) = None ->
  createViduVideo env net options = ([], Threw (Error MSG_MISSING_KEY)).
Proof.
  intros H. unfold createViduVideo. now rewrite H.
Qed.

Lemma createViduVideo_rejected {host : Host} env net options apiKey e :
  whenTruthy (VIDU_API_KEY env) = Some apiKey ->
  net (buildRequest env apiKey options) = Threw e ->
  createViduVideo env net options
  = ([Fetch (buildRequest env apiKey options)], Threw e).
Proof.
  intros Hk Hn. unfold createViduVideo. rewrite Hk.
  unfold bind, fetch. now rewrite Hn.
Qed.

(** The four ways a call can go. *)
Lemma createViduVideo_cases {host : Host} env net options :
  (whenTruthy (VIDU_API_KEY env) = None
   /\ createViduVideo env net options = ([], Threw (Error MSG_MISSING_KEY)))
  \/ exists apiKey,
       whenTruthy (VIDU_API_KEY env) = Some apiKey
       /\ ((exists e,
              net (buildRequest env apiKey options) = Threw e
              /\ createViduVideo env net options
                 = ([Fetch (buildRequest env apiKey options)], Threw e))
           \/ (exists response result,
                 net (buildRequest env apiKey options) = Returned response
                 /\ resp_ok response = true
                 /\ createViduVideo env net options
                    = ([Fetch (buildRequest env apiKey options)],
                       Returned result))
           \/ (exists response result,
                 net (buildRequest env apiKey options) = Returned response
                 /\ resp_ok response = false
                 /\ createViduVideo env net options
                    = ([Fetch (buildRequest env apiKey options);
                        ConsoleError (failureLine response)],
                       Returned result))).
Proof.
  destruct (whenTruthy (VIDU_API_KEY env)) as [apiKey|] eqn:Hk.
  - right. exists apiKey. split; [reflexivity|].
    destruct (net (buildRequest env apiKey options)) as [response|e] eqn:Hn.
    + destruct (resp_ok response) eqn:Hok.
      * right; left. exists response. eexists.
        split; [first [reflexivity|exact Hn]|]. split; [exact Hok|].
        exact (createViduVideo_ok env net options apiKey response Hk Hn Hok).
      * right; right. exists response. eexists.
        split; [first [reflexivity|exact Hn]|]. split; [exact Hok|].
        exact (createViduVideo_not_ok env net options apiKey response
                 Hk Hn Hok).
    + left. exists e. split; [first [reflexivity|exact Hn]|].
      exact (createViduVideo_rejected env net options apiKey e Hk Hn).
  - left. split; [reflexivity|].
    exact (createViduVideo_no_key env net options Hk).
Qed.

Lemma client_raises_iff {host : Host} env net options e :
  outcome (createViduVideo env net options) = Threw e
  <-> (whenTruthy (VIDU_API_KEY env) = None /\ e = Error MSG_MISSING_KEY)
      \/ (exists apiKey,
            whenTruthy (VIDU_API_KEY env) = Some apiKey
            /\ net (buildRequest env apiKey options) = Threw e).
Proof.
  split.
  - intros H.
    destruct (createViduVideo_cases env net options)
      as [[Hk E]|[apiKey [Hk [[e' [Hn E]]|[[r [res [Hn [_ E]]]]
                                          |[r [res [Hn [_ E]]]]]]]]];
      rewrite E in H; unfold outcome in H; cbn [snd] in H.
    + left. split; [exact Hk|congruence].
    + right. exists apiKey. split; [exact Hk|congruence].
    + discriminate.
    + discriminate.
  - intros [[Hk ->]|[apiKey [Hk Hn]]].
    + rewrite (createViduVideo_no_key env net options Hk). reflexivity.
    + rewrite (createViduVideo_rejected env net options apiKey e Hk Hn).
      reflexivity.
Qed.

(** X7. The client raises in two situations only: the key is absent or
    empty (the configuration error), or [fetch] itself rejects (the
    rejection is passed on).  No response makes it raise. *)
Theorem createViduVideo_raises_iff
  {host : Host} (env : Env) (net : Network) (options : Options.t)
  (e : Thrown) :
  outcome (createViduVideo env net options) = Threw e
  <-> (whenTruthy (VIDU_API_KEY env) = None /\ e = Error MSG_MISSING_KEY)
      \/ (exists apiKey,
            whenTruthy (VIDU_API_KEY env) = Some apiKey
            /\ net (buildRequest env apiKey options) = Threw e).
Proof. exact (client_raises_iff env net options e). Qed.

(** X8. A call sends no request without a key and exactly one with a key,
    whatever the provider answers; and a line goes to the console exactly
    when a response came back outside the success range. *)
Theorem createViduVideo_trace
  {host : Host} (env : Env) (net : Network) (options : Options.t) :
  let t := trace (createViduVideo env net options) in
  requestsOf t
  = match whenTruthy (VIDU_API_KEY env) with
    | Some apiKey => [buildRequest env apiKey options]
    | None => []
    end
  /\ forall line,
       In (ConsoleError line) t
       <-> exists apiKey response,
             whenTruthy (VIDU_API_KEY env) = Some apiKey
             /\ net (buildRequest env apiKey options) = Returned response
             /\ resp_ok response = false
             /\ line = failureLine response.
Proof.
  intros t. subst t.
  destruct (createViduVideo_cases env net options)
    as [[Hk E]|[apiKey [Hk [[e' [Hn E]]|[[r [res [Hn [Hok E]]]]
                                        |[r [res [Hn [Hok E]]]]]]]]];
    rewrite E, Hk; unfold trace; cbn [fst requestsOf];
    (split; [reflexivity|]);
    intros line; split.
  - intros [].
  - intros [k [r [Hk' _]]]. discriminate.
  - intros [F|[]]. discriminate.
  - intros [k [r [Hk' [Hn' _]]]]. congruence.
  - intros [F|[]]. discriminate.
  - intros [k [r' [Hk' [Hn' [Hok' _]]]]]. congruence.
  - intros [F|[F|[]]]; [discriminate|]. injection F as <-.
    now exists apiKey, r.
  - intros [k [r' [Hk' [Hn' [Hok' ->]]]]].
    right; left. congruence.
Qed.

Lemma requests_with_key {host : Host} env net options apiKey :
  whenTruthy (VIDU_API_KEY env) = Some apiKey ->
  requestsOf (trace (createViduVideo env net options))
  = [buildRequest env apiKey options].
Proof.
  intros Hk.
  destruct (createViduVideo_cases env net options)
    as [[Hk' _]|[k [Hk' [[e' [_ E]]|[[r [res [_ [_ E]]]]
                                    |[r [res [_ [_ E]]]]]]]]];
    [congruence| | |];
    rewrite E; replace k with apiKey by congruence; reflexivity.
Qed.

Lemma trimmedOrUndefined_blank u :
  blank u -> trimmedOrUndefined (Some u) = None.
Proof.
  intros B. apply trim_nil in B. unfold trimmedOrUndefined. cbn [option_map].
  now rewrite B.
Qed.

Lemma trimmedOrUndefined_visible u :
  hasVisible u -> trimmedOrUndefined (Some u) = Some (trim u).
Proof.
  intros V. unfold trimmedOrUndefined. cbn [option_map].
  destruct (trim u) eqn:E; [|reflexivity].
  apply trim_nil in E. now apply visible_not_blank in V.
Qed.

(** X9. With a key set, the one request is a POST that carries the key,
    as it is, in a bearer [Authorization] header; it goes to the default
    endpoint when [VIDU_API_URL] is absent or blank, and to the trimmed
    override otherwise. *)
Theorem createViduVideo_request_target
  {host : Host} (env : Env) (net : Network) (options : Options.t)
  (apiKey : jsstring) :
  whenTruthy (VIDU_API_KEY env) = Some apiKey ->
  exists request,
    requestsOf (trace (createViduVideo env net options)) = [request]
    /\ req_method request = js "POST"
    /\ lookupHeader (js "Authorization") (req_headers request)
       = Some (js "Bearer " ++ apiKey)
    /\ lookupHeader (js "Content-Type") (req_headers request)
       = Some (js "application/json")
    /\ (VIDU_API_URL env = None
        \/ (exists u, VIDU_API_URL env = Some u /\ blank u) ->
        req_url request = DEFAULT_VIDU_ENDPOINT)
    /\ (forall u, VIDU_API_URL env = Some u -> hasVisible u ->
                  req_url request = trim u).
Proof.
  intros Hk. exists (buildRequest env apiKey options).
  split; [exact (requests_with_key env net options apiKey Hk)|].
  unfold buildRequest. cbn [req_method req_headers req_url].
  repeat split.
  - intros [-> | [u [-> B]]]; [reflexivity|].
    now rewrite (trimmedOrUndefined_blank u B).
  - intros u -> V. now rewrite (trimmedOrUndefined_visible u V).
Qed.

Lemma createViduVideo_request_target_witness :
  exists request,
    requestsOf (trace (createViduVideo (host := ReferenceHost.host)
                         {| VIDU_API_KEY := Some (js "secret");
                            VIDU_API_URL := Some (js " https://vidu.test/v2 ") |}
                         (respond (response_ex 200 None)) options_ex))
    = [request]
    /\ req_url request = js "https://vidu.test/v2"
    /\ lookupHeader (js "Authorization") (req_headers request)
       = Some (js "Bearer secret").
Proof.
  destruct (createViduVideo_request_target (host := ReferenceHost.host)
              {| VIDU_API_KEY := Some (js "secret");
                 VIDU_API_URL := Some (js " https://vidu.test/v2 ") |}
              (respond (response_ex 200 None)) options_ex (js "secret")
              eq_refl)
    as [request [Hreq [_ [Hauth [_ [_ Hurl]]]]]].
  exists request. split; [exact Hreq|]. split; [|exact Hauth].
  apply (Hurl (js " https://vidu.test/v2 ") eq_refl).
  exists 104%N. split; [right; now left|reflexivity].
Defined.

Lemma buildPayload_lookup options :
  let payload := buildPayload options in
  getProp payload (js "prompt") = VString (Options.prompt options)
  /\ getProp payload (js "duration") = VNumber (Options.durationSeconds options)
  /\ getProp payload (js "aspect_ratio") = VString (Options.aspectRatio options)
  /\ getProp payload (js "style")
     = match Options.style options with
       | Some s => if isBlank s then VUndefined else VString (trim s)
       | None => VUndefined
       end
  /\ getProp payload (js "reference_image_url")
     = match Options.referenceImageUrl options with
       | Some (c :: r) => VString (c :: r)
       | _ => VUndefined
       end.
Proof.
  destruct options as [p d a st ref].
  unfold buildPayload, trimmedOrUndefined, isBlank, option_map.
  cbn [Options.prompt Options.durationSeconds Options.aspectRatio
       Options.style Options.referenceImageUrl].
  repeat split.
  - destruct st as [s|]; [destruct (trim s)|]; destruct ref as [[|c r]|];
      reflexivity.
  - destruct st as [s|]; [destruct (trim s)|]; destruct ref as [[|c r]|];
      reflexivity.
Qed.

(** X10. The payload holds the prompt, the duration and the aspect ratio
    under [prompt], [duration] and [aspect_ratio]; [style] holds the
    trimmed style and is left out when the style is absent or blank;
    [reference_image_url] holds the reference URL as given and is left out
    when it is absent or empty. *)
Theorem buildPayload_fields (options : Options.t) :
  let payload := buildPayload options in
  getProp payload (js "prompt") = VString (Options.prompt options)
  /\ getProp payload (js "duration") = VNumber (Options.durationSeconds options)
  /\ getProp payload (js "aspect_ratio") = VString (Options.aspectRatio options)
  /\ getProp payload (js "style")
     = match Options.style options with
       | Some s => if isBlank s then VUndefined else VString (trim s)
       | None => VUndefined
       end
  /\ getProp payload (js "reference_image_url")
     = match Options.referenceImageUrl options with
       | Some (c :: r) => VString (c :: r)
       | _ => VUndefined
       end.
Proof. exact (buildPayload_lookup options). Qed.

(** ** Reading the response *)

Lemma extractString_not_object source :
  isObject source = false ->
  extractString source VIDEO_URL_KEYS = []
  /\ extractString source PREVIEW_KEYS = []
  /\ extractString source JOB_ID_KEYS = []
  /\ extractString source STATUS_KEYS = [].
Proof.
  intros H. destruct source; try discriminate H; repeat split; reflexivity.
Qed.

(** X11. A success response whose body is not a JSON object (a number, a
    string, a boolean, an array, [null], or no JSON at all) gives the
    result with every field empty and the status [queued]. *)
Theorem createViduVideo_body_not_object
  {host : Host} (env : Env) (net : Network) (options : Options.t)
  (apiKey : jsstring) (response : HttpResponse) :
  whenTruthy (VIDU_API_KEY env) = Some apiKey ->
  net (buildRequest env apiKey options) = Returned response ->
  resp_ok response = true ->
  (forall body, resp_json response = Some body -> isObject body = false) ->
  outcome (createViduVideo env net options)
  = Returned (emptyResult (bodyOf response)).
Proof.
  intros Hk Hn Hok Hb.
  rewrite (createViduVideo_ok env net options apiKey response Hk Hn Hok).
  unfold outcome. cbn [snd]. f_equal.
  assert (E : extractString (bodyOf response) VIDEO_URL_KEYS = []
              /\ extractString (bodyOf response) PREVIEW_KEYS = []
              /\ extractString (bodyOf response) JOB_ID_KEYS = []
              /\ extractString (bodyOf response) STATUS_KEYS = []).
  { unfold bodyOf. destruct (resp_json response) as [body|].
    - specialize (Hb body eq_refl).
      destruct (nullish body); [repeat split; reflexivity|].
      exact (extractString_not_object body Hb).
    - repeat split; reflexivity. }
  destruct E as [E1 [E2 [E3 E4]]]. cbn zeta. rewrite E1, E2, E3, E4.
  reflexivity.
Qed.

Lemma createViduVideo_body_not_object_witness :
  outcome (createViduVideo (host := ReferenceHost.host) env_ex
             (respond (response_ex 200
                         (Some (VArray [VString (js "https://x/y.mp4")]))))
             options_ex)
  = Returned (emptyResult (VArray [VString (js "https://x/y.mp4")])).
Proof.
  apply (createViduVideo_body_not_object (host := ReferenceHost.host)
           env_ex _ options_ex (js "secret")
           (response_ex 200 (Some (VArray [VString (js "https://x/y.mp4")])))
           eq_refl eq_refl eq_refl).
  intros body E. injection E as <-. reflexivity.
Defined.

(** X12. What field extraction answers is the empty string or a string
    that is not blank, and then it is the value of one of the candidate
    keys: it never answers a string of white space, and never a string it
    made up. *)
Theorem extractString_empty_or_found (source : JSValue) (keys : list jsstring) :
  extractString source keys = []
  \/ (hasVisible (extractString source keys)
      /\ exists key, In key keys
                     /\ getProp source key
                        = VString (extractString source keys)).
Proof.
  induction keys as [|key rest IH]; [now left|]. cbn [extractString].
  assert (Hrest :
    extractString source rest = []
    \/ (hasVisible (extractString source rest)
        /\ exists k, In k (key :: rest)
                     /\ getProp source k = VString (extractString source rest))).
  { destruct IH as [E|[V [k [Hk G]]]]; [now left|right].
    split; [exact V|]. exists k. split; [now right|exact G]. }
  destruct (getProp source key) as [| | | |v| |] eqn:G; try exact Hrest.
  destruct (0 <? List.length (trim v))%nat eqn:L; [|exact Hrest].
  right. split; [now apply trim_length_visible|].
  exists key. split; [now left|exact G].
Qed.

Lemma bodyOf_not_nullish response : nullish (bodyOf response) = false.
Proof.
  unfold bodyOf. destruct (resp_json response) as [body|]; [|reflexivity].
  destruct (nullish body) eqn:E; [reflexivity|exact E].
Qed.

(** X13. On a success response the result agrees with the raw response
    it carries: the raw response is never [null] or [undefined], and the
    video URL, the preview image URL and the job id are what field
    extraction reads from it. *)
Theorem createViduVideo_result_agrees_with_raw
  {host : Host} (env : Env) (net : Network) (options : Options.t)
  (apiKey : jsstring) (response : HttpResponse) :
  whenTruthy (VIDU_API_KEY env) = Some apiKey ->
  net (buildRequest env apiKey options) = Returned response ->
  resp_ok response = true ->
  exists result,
    outcome (createViduVideo env net options) = Returned result
    /\ nullish (rawResponse result) = false
    /\ videoUrl result = extractString (rawResponse result) VIDEO_URL_KEYS
    /\ previewImageUrl result
       = Some (extractString (rawResponse result) PREVIEW_KEYS)
    /\ jobId result = Some (extractString (rawResponse result) JOB_ID_KEYS).
Proof.
  intros Hk Hn Hok.
  rewrite (createViduVideo_ok env net options apiKey response Hk Hn Hok).
  eexists. split; [reflexivity|].
  cbn [rawResponse videoUrl previewImageUrl jobId].
  split; [apply bodyOf_not_nullish|]. repeat split.
Qed.

Lemma createViduVideo_result_agrees_with_raw_witness :
  exists result,
    outcome (createViduVideo (host := ReferenceHost.host) env_ex
               (respond (response_ex 200 (Some VNull))) options_ex)
    = Returned result
    /\ nullish (rawResponse result) = false.
Proof.
  destruct (createViduVideo_result_agrees_with_raw
              (host := ReferenceHost.host) env_ex
              (respond (response_ex 200 (Some VNull))) options_ex
              (js "secret") (response_ex 200 (Some VNull))
              eq_refl eq_refl eq_refl)
    as [result [Hout [Hraw _]]].
  exists result. split; [exact Hout|exact Hraw].
Defined.

(** The status read off a lower-cased text. *)
Lemma status_of_text normalized :
  let st := if startsWith normalized (js "complete") then completed
            else if startsWith normalized (js "fail")
                    || JsString.eqb normalized (js "error")
                 then failed else queued in
  (hasPrefix (js "complete") normalized -> st = completed)
  /\ (hasPrefix (js "fail") normalized \/ normalized = js "error" ->
      st = failed)
  /\ (~ hasPrefix (js "complete") normalized ->
      ~ hasPrefix (js "fail") normalized ->
      normalized <> js "error" -> st = queued).
Proof.
  intros st. subst st.
  destruct (startsWith normalized (js "complete")) eqn:Sc.
  - apply startsWith_hasPrefix in Sc. repeat split; try reflexivity.
    + intros [[rest Hf]|He]; destruct Sc as [rest' Hc];
        rewrite Hc in *; discriminate.
    + intros Hn. now elim Hn.
  - assert (Nc : ~ hasPrefix (js "complete") normalized).
    { intros Hc. apply startsWith_hasPrefix in Hc. congruence. }
    destruct (startsWith normalized (js "fail")) eqn:Sf; cbn [orb].
    + apply startsWith_hasPrefix in Sf. repeat split; try reflexivity.
      * intros Hc. now elim Nc.
      * intros _ Hn. now elim Hn.
    + assert (Nf : ~ hasPrefix (js "fail") normalized).
      { intros Hf. apply startsWith_hasPrefix in Hf. congruence. }
      destruct (JsString.eqb normalized (js "error")) eqn:Se.
      * apply eqb_eq in Se. repeat split; try reflexivity.
        -- intros Hc. now elim Nc.
        -- intros _ _ Hn. now elim Hn.
      * assert (Ne : normalized <> js "error").
        { intros He. apply eqb_eq in He. congruence. }
        repeat split; try reflexivity.
        -- intros Hc. now elim Nc.
        -- intros [Hf|He]; [now elim Nf|now elim Ne].
Qed.

(** X14. On every host an ASCII raw status is classified without regard
    to letter case: what counts is the text with [A]-[Z] replaced by
    [a]-[z]. *)
Theorem createViduVideo_ascii_status
  {host : Host} (env : Env) (net : Network) (options : Options.t)
  (apiKey : jsstring) (response : HttpResponse) (raw : jsstring) :
  whenTruthy (VIDU_API_KEY env) = Some apiKey ->
  net (buildRequest env apiKey options) = Returned response ->
  resp_ok response = true ->
  qualifies (bodyOf response) (js "status") raw ->
  forallb isAscii raw = true ->
  exists result,
    outcome (createViduVideo env net options) = Returned result
    /\ let lowered := List.map asciiLower raw in
       (hasPrefix (js "complete") lowered -> status result = completed)
       /\ (hasPrefix (js "fail") lowered \/ lowered = js "error" ->
           status result = failed)
       /\ (~ hasPrefix (js "complete") lowered ->
           ~ hasPrefix (js "fail") lowered ->
           lowered <> js "error" -> status result = queued).
Proof.
  intros Hk Hn Hok Hq Hascii.
  rewrite (createViduVideo_ok env net options apiKey response Hk Hn Hok).
  eexists. split; [reflexivity|]. cbn [status].
  assert (Eraw : extractString (bodyOf response) STATUS_KEYS = raw)
    by exact (extractString_first (bodyOf response) [] (js "status") []
                raw (fun k (F : In k []) => match F with end) Hq).
  assert (Traw : truthy raw = true).
  { destruct Hq as [_ [c [Hc _]]]. now destruct raw. }
  rewrite Eraw, Traw, (toLowerCase_ascii raw Hascii).
  exact (status_of_text (List.map asciiLower raw)).
Qed.

Lemma createViduVideo_ascii_status_witness :
  exists result,
    outcome (createViduVideo (host := ReferenceHost.host) env_ex
               (respond (response_ex 200 (Some body_failed_timeout)))
               options_ex)
    = Returned result
    /\ status result = failed.
Proof.
  destruct (createViduVideo_ascii_status (host := ReferenceHost.host)
              env_ex (respond (response_ex 200 (Some body_failed_timeout)))
              options_ex (js "secret")
              (response_ex 200 (Some body_failed_timeout))
              (js "FAILED_TIMEOUT") eq_refl eq_refl eq_refl)
    as [result [Hout [_ [Hfail _]]]].
  - split; [reflexivity|]. exists 70%N. split; [now left|reflexivity].
  - reflexivity.
  - exists result. split; [exact Hout|].
    apply Hfail. left. exists (js "ed_timeout"). reflexivity.
Defined.

(** ** Prompt resolution, case by case *)

Lemma resolved_visible {host : Host} input text :
  resolvePrompt input = Returned text -> hasVisible text.
Proof.
  unfold resolvePrompt, decodePrompt.
  destruct (whenTruthy (Input.promptBase64 input)) as [encoded|].
  - destruct (decodeBase64Utf8 encoded) as [decoded|e]; [|discriminate].
    destruct (List.length (trim decoded) =? 0)%nat eqn:L; [discriminate|].
    intros E. injection E as <-. apply trim_length_visible.
    destruct (List.length (trim decoded)); [discriminate|reflexivity].
  - destruct (Input.prompt input) as [p|]; [|discriminate].
    destruct (0 <? List.length (trim p))%nat eqn:L; [|discriminate].
    intros E. injection E as <-. now apply trim_length_visible.
Qed.

(** X15. A resolved prompt is never blank: it holds a code unit that is
    not white space. *)
Theorem resolvePrompt_returns_visible
  {host : Host} (input : Input.t) (text : jsstring) :
  resolvePrompt input = Returned text -> hasVisible text.
Proof. exact (resolved_visible input text). Qed.

Lemma resolvePrompt_returns_visible_witness :
  hasVisible (js "  a plain prompt ").
Proof.
  apply (resolvePrompt_returns_visible (host := ReferenceHost.host)
           (Input.Build (Some (js "  a plain prompt ")) None
              None None None None)).
  reflexivity.
Defined.

(** X16. There is no fallback from [promptBase64] to [prompt]: a
    non-empty [promptBase64] that decodes to a blank text raises the
    decoding error, also when [prompt] holds a usable text. *)
Theorem resolvePrompt_blank_decode_no_fallback
  {host : Host} (input : Input.t) (encoded text : jsstring) :
  whenTruthy (Input.promptBase64 input) = Some encoded ->
  decodeBase64Utf8 encoded = Returned text ->
  blank text ->
  resolvePrompt input
  = Threw (Error (MSG_DECODE_FAILED ++ MSG_DECODED_EMPTY)).
Proof.
  intros He Hd B. unfold resolvePrompt, decodePrompt. rewrite He, Hd.
  apply trim_nil in B. now rewrite B.
Qed.

Lemma resolvePrompt_blank_decode_no_fallback_witness :
  resolvePrompt (host := ReferenceHost.host)
    (Input.Build (Some (js "a usable prompt")) (Some (js "ICAg"))
       None None None None)
  = Threw (Error (MSG_DECODE_FAILED ++ MSG_DECODED_EMPTY)).
Proof.
  apply (resolvePrompt_blank_decode_no_fallback (host := ReferenceHost.host)
           (Input.Build (Some (js "a usable prompt")) (Some (js "ICAg"))
              None None None None)
           (js "ICAg") (js "   ") eq_refl eq_refl).
  intros c [<-|[<-|[<-|[]]]]; reflexivity.
Defined.

(** X17. Without a [promptBase64], or with an empty one, a [prompt] that
    is not blank is resolved as it is, surrounding white space included. *)
Theorem resolvePrompt_plain_verbatim
  {host : Host} (input : Input.t) (p : jsstring) :
  whenTruthy (Input.promptBase64 input) = None ->
  Input.prompt input = Some p ->
  hasVisible p ->
  resolvePrompt input = Returned p.
Proof.
  intros He Hp V. unfold resolvePrompt. rewrite He, Hp.
  apply trim_length_visible in V. now rewrite V.
Qed.

Lemma resolvePrompt_plain_verbatim_witness :
  resolvePrompt (host := ReferenceHost.host)
    (Input.Build (Some (js "  a plain prompt ")) (Some [])
       None None None None)
  = Returned (js "  a plain prompt ").
Proof.
  apply (resolvePrompt_plain_verbatim (host := ReferenceHost.host)
           (Input.Build (Some (js "  a plain prompt ")) (Some [])
              None None None None)
           (js "  a plain prompt ") eq_refl eq_refl).
  exists 97%N. split; [right; right; now left|reflexivity].
Defined.

(** X18. Prompt resolution raises two kinds of error only: the
    missing-prompt error, and an error whose message starts with the
    decoding-failure text; what the decoder threw is never passed on as it
    is. *)
Theorem resolvePrompt_errors
  {host : Host} (input : Input.t) (e : Thrown) :
  resolvePrompt input = Threw e ->
  (e = Error MSG_MISSING_PROMPT
   /\ whenTruthy (Input.promptBase64 input) = None)
  \/ (exists inner, e = Error (MSG_DECODE_FAILED ++ inner)
      /\ whenTruthy (Input.promptBase64 input) <> None).
Proof.
  unfold resolvePrompt.
  destruct (whenTruthy (Input.promptBase64 input)) as [encoded|].
  - destruct (decodePrompt encoded) as [decoded|e']; [discriminate|].
    intros E. injection E as <-. right. exists (messageOf e').
    split; [reflexivity|discriminate].
  - intros E. left. split; [|reflexivity].
    destruct (Input.prompt input) as [p|];
      [destruct (0 <? List.length (trim p))%nat; [discriminate|]|];
      now injection E as <-.
Qed.

Lemma resolvePrompt_errors_witness :
  (Error MSG_MISSING_PROMPT = Error MSG_MISSING_PROMPT
   /\ whenTruthy (Input.promptBase64
                    (Input.Build None None None None None None)) = None)
  \/ (exists inner, Error MSG_MISSING_PROMPT = Error (MSG_DECODE_FAILED ++ inner)
      /\ whenTruthy (Input.promptBase64
                       (Input.Build None None None None None None)) <> None).
Proof.
  exact (resolvePrompt_errors (host := ReferenceHost.host)
           (Input.Build None None None None None None)
           (Error MSG_MISSING_PROMPT) eq_refl).
Defined.

(** ** The tool body as a whole *)

Lemma sanitized_resolved_nonempty {host : Host} input raw :
  resolvePrompt input = Returned raw -> cleanPromptForVidu raw <> [].
Proof.
  intros R E. apply sanitized_nil_iff in E.
  exact (visible_not_blank raw (resolved_visible input raw R) E).
Qed.

Lemma generateViduVideo_resolved {host : Host} env net input raw :
  resolvePrompt input = Returned raw ->
  generateViduVideo env net input
  = createViduVideo env net (normalizedOptions input raw).
Proof.
  intros R. unfold generateViduVideo. rewrite R.
  unfold bind, lift.
  pose proof (sanitized_resolved_nonempty input raw R) as Hne.
  apply truthy_true in Hne. rewrite Hne. cbn [negb]. unfold normalizedOptions.
  destruct (createViduVideo env net _) as [t r]. reflexivity.
Qed.

Lemma generateViduVideo_unresolved {host : Host} env net input e :
  resolvePrompt input = Threw e ->
  generateViduVideo env net input = ([], Threw e).
Proof.
  intros R. unfold generateViduVideo. now rewrite R.
Qed.

(** X19. The empty-prompt check of the tool never fires: a resolved prompt
    is not blank, its sanitized form is not empty, and the tool goes on to
    the client with the sanitized prompt, the clamped duration, the aspect
    ratio or its default, and the trimmed style and reference URL. *)
Theorem generateViduVideo_reaches_client
  {host : Host} (env : Env) (net : Network) (input : Input.t)
  (raw : jsstring) :
  resolvePrompt input = Returned raw ->
  cleanPromptForVidu raw <> []
  /\ generateViduVideo env net input
     = createViduVideo env net (normalizedOptions input raw).
Proof.
  intros R. split.
  - exact (sanitized_resolved_nonempty input raw R).
  - exact (generateViduVideo_resolved env net input raw R).
Qed.

Lemma generateViduVideo_reaches_client_witness :
  let input := Input.Build (Some (js " a  cat ")) None None None None None in
  cleanPromptForVidu (js " a  cat ") <> []
  /\ generateViduVideo (host := ReferenceHost.host) env_ex
       (respond (response_ex 200 None)) input
     = createViduVideo (host := ReferenceHost.host) env_ex
         (respond (response_ex 200 None))
         (normalizedOptions input (js " a  cat ")).
Proof.
  intros input.
  exact (generateViduVideo_reaches_client (host := ReferenceHost.host) env_ex
           (respond (response_ex 200 None)) input (js " a  cat ") eq_refl).
Defined.

Lemma tool_requests {host : Host} env net input :
  requestsOf (trace (generateViduVideo env net input))
  = match resolvePrompt input, whenTruthy (VIDU_API_KEY env) with
    | Returned raw, Some apiKey =>
        [buildRequest env apiKey (normalizedOptions input raw)]
    | _, _ => []
    end.
Proof.
  destruct (resolvePrompt input) as [raw|e] eqn:R.
  - rewrite (generateViduVideo_resolved env net input raw R).
    destruct (whenTruthy (VIDU_API_KEY env)) as [apiKey|] eqn:Hk.
    + exact (requests_with_key env net _ apiKey Hk).
    + now rewrite (createViduVideo_no_key env net _ Hk).
  - now rewrite (generateViduVideo_unresolved env net input e R).
Qed.

(** X20. The tool sends a request exactly when the prompt resolves and the
    key is set, and then one request only, built from the normalized
    options; an input error or a missing key means no request at all. *)
Theorem generateViduVideo_requests
  {host : Host} (env : Env) (net : Network) (input : Input.t) :
  requestsOf (trace (generateViduVideo env net input))
  = match resolvePrompt input, whenTruthy (VIDU_API_KEY env) with
    | Returned raw, Some apiKey =>
        [buildRequest env apiKey (normalizedOptions input raw)]
    | _, _ => []
    end.
Proof. exact (tool_requests env net input). Qed.

Lemma trim_trim s : trim (trim s) = trim s.
Proof. exact (trim_fixed (trim s) (trim_noOuterWhitespace s)). Qed.

Lemma normalized_optional_lookup (o : option jsstring) :
  match trimmedOrUndefined o with
  | Some s => if isBlank s then VUndefined else VString (trim s)
  | None => VUndefined
  end
  = match o with
    | Some s => if isBlank s then VUndefined else VString (trim s)
    | None => VUndefined
    end
  /\ match trimmedOrUndefined o with
     | Some (c :: r) => VString (c :: r)
     | _ => VUndefined
     end
     = match o with
       | Some s => if isBlank s then VUndefined else VString (trim s)
       | None => VUndefined
       end.
Proof.
  destruct o as [s|]; [|split; reflexivity].
  unfold trimmedOrUndefined, isBlank. cbn [option_map].
  destruct (trim s) as [|c r] eqn:T; [split; reflexivity|].
  cbn [whenTruthy]. rewrite <- T, trim_trim, T. split; reflexivity.
Qed.

(** X21. Every request the tool sends is fully populated and valid: the
    prompt is not empty, single-spaced and without white space at either
    end; the duration lies between 1 and 8; the aspect ratio is the given
    one, or [16:9] when none was given; the style and the reference URL are
    the trimmed inputs, and are left out when absent or blank. *)
Theorem generateViduVideo_request_invariant
  {host : Host} (env : Env) (net : Network) (input : Input.t)
  (request : HttpRequest) :
  In request (requestsOf (trace (generateViduVideo env net input))) ->
  let payload := req_payload request in
  (exists p, getProp payload (js "prompt") = VString p
             /\ p <> [] /\ singleSpaced p /\ noOuterWhitespace p)
  /\ (exists d, getProp payload (js "duration") = VNumber d
                /\ SFleb (literal 1 0) d = true
                /\ SFleb d (literal 8 0) = true)
  /\ getProp payload (js "aspect_ratio")
     = VString (match Input.aspectRatio input with
                | Some a => a
                | None => js "16:9"
                end)
  /\ getProp payload (js "style")
     = match Input.style input with
       | Some s => if isBlank s then VUndefined else VString (trim s)
       | None => VUndefined
       end
  /\ getProp payload (js "reference_image_url")
     = match Input.referenceImageUrl input with
       | Some u => if isBlank u then VUndefined else VString (trim u)
       | None => VUndefined
       end.
Proof.
  rewrite (tool_requests env net input).
  destruct (resolvePrompt input) as [raw|e] eqn:R; [|intros []].
  destruct (whenTruthy (VIDU_API_KEY env)) as [apiKey|]; [|intros []].
  intros [<-|[]]. cbn zeta. unfold buildRequest. cbn [req_payload].
  destruct (buildPayload_lookup (normalizedOptions input raw))
    as [Hp [Hd [Ha [Hs Hr]]]].
  unfold normalizedOptions in Hp, Hd, Ha, Hs, Hr.
  cbn [Options.prompt Options.durationSeconds Options.aspectRatio
       Options.style Options.referenceImageUrl] in Hp, Hd, Ha, Hs, Hr.
  fold (normalizedOptions input raw) in Hp, Hd, Ha, Hs, Hr.
  split; [|split; [|split; [|split]]].
  - exists (cleanPromptForVidu raw). split; [exact Hp|]. split.
    + exact (sanitized_resolved_nonempty input raw R).
    + split; [apply cleanPromptForVidu_singleSpaced
             |apply trim_noOuterWhitespace].
  - exists (clampDuration (Input.durationSeconds input)).
    split; [exact Hd|]. exact (clampDuration_bounds _).
  - exact Ha.
  - rewrite Hs. exact (proj1 (normalized_optional_lookup (Input.style input))).
  - rewrite Hr.
    exact (proj2 (normalized_optional_lookup (Input.referenceImageUrl input))).
Qed.

Lemma generateViduVideo_request_invariant_witness :
  let input :=
    Input.Build (Some (js " a  cat ")) None (Some (literal 99 0)) None
      (Some (js " anime ")) (Some (js "   ")) in
  let request := buildRequest env_ex (js "secret")
                   (normalizedOptions input (js " a  cat ")) in
  getProp (req_payload request) (js "style") = VString (js "anime")
  /\ getProp (req_payload request) (js "reference_image_url") = VUndefined
  /\ getProp (req_payload request) (js "aspect_ratio") = VString (js "16:9").
Proof.
  intros input request.
  destruct (generateViduVideo_request_invariant (host := ReferenceHost.host)
              env_ex (respond (response_ex 200 None)) input request
              (or_introl eq_refl))
    as [_ [_ [Ha [Hs Hr]]]].
  split; [exact Hs|]. split; [exact Hr|exact Ha].
Defined.

(** ** The tool body that takes the plain prompt only *)

(** X22. Given a blank prompt the two tool bodies both stop before any
    request, with different errors: the plain-prompt tool raises the
    empty-prompt error, the tool with [promptBase64] the missing-prompt
    error. *)
Theorem blank_prompt_errors
  {host : Host} (env : Env) (net : Network) (p : jsstring)
  (d : option number) (a s r : option jsstring) :
  blank p ->
  PlainPromptTool.generateViduVideo env net (PlainPromptTool.Build p d a s r)
  = ([], Threw (Error MSG_EMPTY_PROMPT))
  /\ generateViduVideo env net (Input.Build (Some p) None d a s r)
     = ([], Threw (Error MSG_MISSING_PROMPT)).
Proof.
  intros B. split.
  - unfold PlainPromptTool.generateViduVideo. cbn [PlainPromptTool.prompt].
    apply sanitized_nil_iff in B. now rewrite B.
  - apply generateViduVideo_unresolved. unfold resolvePrompt.
    cbn [Input.promptBase64 Input.prompt whenTruthy].
    apply trim_length_blank in B. now rewrite B.
Qed.

Lemma blank_prompt_errors_witness :
  PlainPromptTool.generateViduVideo (host := ReferenceHost.host) env_ex
    (respond (response_ex 200 None))
    (PlainPromptTool.Build (js "  ") None None None None)
  = ([], Threw (Error MSG_EMPTY_PROMPT))
  /\ generateViduVideo (host := ReferenceHost.host) env_ex
       (respond (response_ex 200 None))
       (Input.Build (Some (js "  ")) None None None None None)
     = ([], Threw (Error MSG_MISSING_PROMPT)).
Proof.
  apply (blank_prompt_errors (host := ReferenceHost.host)).
  intros c [<-|[<-|[]]]; reflexivity.
Defined.

(** X23. On a prompt that is not blank, and without a [promptBase64] (or
    with an empty one), the tool with [promptBase64] does what the
    plain-prompt tool does: same events, same outcome. *)
Theorem tools_agree_on_plain_prompt
  {host : Host} (env : Env) (net : Network) (p : jsstring)
  (encoded : option jsstring) (d : option number) (a s r : option jsstring) :
  whenTruthy encoded = None ->
  hasVisible p ->
  generateViduVideo env net (Input.Build (Some p) encoded d a s r)
  = PlainPromptTool.generateViduVideo env net
      (PlainPromptTool.Build p d a s r).
Proof.
  intros He V.
  assert (R : resolvePrompt (Input.Build (Some p) encoded d a s r)
              = Returned p).
  { unfold resolvePrompt. cbn [Input.promptBase64 Input.prompt].
    rewrite He. apply trim_length_visible in V. now rewrite V. }
  rewrite (generateViduVideo_resolved env net _ p R).
  unfold PlainPromptTool.generateViduVideo, normalizedOptions.
  cbn [PlainPromptTool.prompt PlainPromptTool.durationSeconds
       PlainPromptTool.aspectRatio PlainPromptTool.style
       PlainPromptTool.referenceImageUrl
       Input.durationSeconds Input.aspectRatio Input.style
       Input.referenceImageUrl].
  pose proof (sanitized_resolved_nonempty _ p R) as Hne.
  apply truthy_true in Hne. rewrite Hne. reflexivity.
Qed.

Lemma tools_agree_on_plain_prompt_witness :
  generateViduVideo (host := ReferenceHost.host) env_ex
    (respond (response_ex 200 (Some body_video_only)))
    (Input.Build (Some (js " a  cat ")) (Some []) None None None None)
  = PlainPromptTool.generateViduVideo (host := ReferenceHost.host) env_ex
      (respond (response_ex 200 (Some body_video_only)))
      (PlainPromptTool.Build (js " a  cat ") None None None None).
Proof.
  apply (tools_agree_on_plain_prompt (host := ReferenceHost.host));
    [reflexivity|].
  exists 97%N. split; [right; now left|reflexivity].
Defined.

(** X24. The tool raises in three situations only: prompt resolution
    failed (a missing-prompt or a decoding error, before any request), the
    key is absent or empty, or [fetch] rejected.  Whatever the provider
    answers, the tool returns a result. *)
Theorem generateViduVideo_raises_iff
  {host : Host} (env : Env) (net : Network) (input : Input.t) (e : Thrown) :
  outcome (generateViduVideo env net input) = Threw e
  <-> resolvePrompt input = Threw e
      \/ (exists raw,
            resolvePrompt input = Returned raw
            /\ ((whenTruthy (VIDU_API_KEY env) = None
                 /\ e = Error MSG_MISSING_KEY)
                \/ (exists apiKey,
                      whenTruthy (VIDU_API_KEY env) = Some apiKey
                      /\ net (buildRequest env apiKey
                                (normalizedOptions input raw)) = Threw e))).
Proof.
  destruct (resolvePrompt input) as [raw|e'] eqn:R.
  - rewrite (generateViduVideo_resolved env net input raw R).
    rewrite client_raises_iff. split.
    + intros H. right. exists raw. split; [reflexivity|exact H].
    + intros [H|[raw' [E H]]]; [discriminate|].
      injection E as <-. exact H.
  - rewrite (generateViduVideo_unresolved env net input e' R).
    unfold outcome. cbn [snd]. split.
    + intros H. left. injection H as ->. reflexivity.
    + intros [H|[raw [E _]]]; [|discriminate].
      injection H as ->. reflexivity.
Qed.



(** ** Length *)

Lemma replaceNewlines_length s :
  (List.length (replaceNewlines s) <= List.length s)%nat.
Proof.
  assert (H : forall n s, (List.length s <= n)%nat ->
                (List.length (replaceNewlines s) <= List.length s)%nat).
  { clear s. induction n as [|n IH]; intros s L.
    - destruct s; [apply le_n|simpl in L; lia].
    - destruct s as [|c s]; [apply le_n|]. cbn [replaceNewlines].
      simpl in L.
      destruct (c =? LF)%N.
      + simpl. specialize (IH s). lia.
      + destruct s as [|d s]; [apply le_n|].
        destruct ((c =? CR) && (d =? LF))%N.
        * simpl in *. specialize (IH s). lia.
        * specialize (IH (d :: s)). simpl in *. lia. }
  exact (H (List.length s) s (le_n _)).
Qed.

Lemma collapseFrom_length s : forall inRun,
  (List.length (collapseFrom inRun s) <= List.length s)%nat.
Proof.
  induction s as [|c s IH]; intros inRun; simpl; [apply le_n|].
  destruct (isWhiteSpace c); [destruct inRun|]; simpl;
    [specialize (IH true)|specialize (IH true)|specialize (IH false)]; lia.
Qed.

Lemma trimStart_length s : (List.length (trimStart s) <= List.length s)%nat.
Proof.
  induction s as [|c s IH]; simpl; [apply le_n|].
  destruct (isWhiteSpace c); simpl; lia.
Qed.

Lemma trimEnd_length s : (List.length (trimEnd s) <= List.length s)%nat.
Proof.
  induction s as [|c s IH]; simpl; [apply le_n|].
  destruct (trimEnd s); [destruct (isWhiteSpace c)|]; simpl in *; lia.
Qed.

(** X26. Sanitization never lengthens a prompt. *)
Theorem cleanPromptForVidu_length (raw : jsstring) :
  (List.length (cleanPromptForVidu raw) <= List.length raw)%nat.
Proof.
  unfold cleanPromptForVidu, trim, collapseWhitespace.
  pose proof (trimEnd_length
    (trimStart (collapseFrom false (replaceNewlines (replaceSeparators raw))))).
  pose proof (trimStart_length
    (collapseFrom false (replaceNewlines (replaceSeparators raw)))).
  pose proof (collapseFrom_length
    (replaceNewlines (replaceSeparators raw)) false).
  pose proof (replaceNewlines_length (replaceSeparators raw)).
  assert (List.length (replaceSeparators raw) = List.length raw)
    by apply length_map.
  lia.
Qed.

(** ** Under the schema of the tool *)

Lemma schema_base64_truthy input s :
  schemaAcceptsPrompts input = true ->
  Input.promptBase64 input = Some s ->
  hasVisible s /\ whenTruthy (Input.promptBase64 input) = Some s.
Proof.
  intros Hschema Hs. unfold schemaAcceptsPrompts in Hschema.
  rewrite Hs in Hschema.
  apply andb_true_iff in Hschema. destruct Hschema as [_ Hschema].
  apply andb_true_iff in Hschema. destruct Hschema as [Hlen Hall].
  destruct s as [|c s]; [discriminate|]. rewrite Hs. split; [|reflexivity].
  cbn [forallb] in Hall. apply andb_true_iff in Hall.
  destruct Hall as [Hc _]. exists c. split; [now left|].
  exact (isBase64Char_visible c Hc).
Qed.

(** X27. On an input the schema accepts, prompt resolution raises the
    missing-prompt error exactly when [promptBase64] is absent and [prompt]
    is absent or blank: a [promptBase64] the schema accepts is never blank,
    and always sends the tool down the decoding branch. *)
Theorem schema_missing_prompt_iff {host : Host} (input : Input.t) :
  schemaAcceptsPrompts input = true ->
  resolvePrompt input = Threw (Error MSG_MISSING_PROMPT)
  <-> Input.promptBase64 input = None
      /\ (Input.prompt input = None
          \/ exists p, Input.prompt input = Some p /\ blank p).
Proof.
  intros Hschema. split.
  - intros R.
    destruct (Input.promptBase64 input) as [s|] eqn:Hs.
    + exfalso.
      destruct (schema_base64_truthy input s Hschema Hs) as [_ W].
      rewrite Hs in W.
      apply (resolvePrompt_base64_not_missing input s); [|exact R].
      now rewrite Hs.
    + split; [reflexivity|].
      unfold resolvePrompt in R. rewrite Hs in R. cbn [whenTruthy] in R.
      destruct (Input.prompt input) as [p|]; [right|now left].
      exists p. split; [reflexivity|]. apply trim_length_blank.
      destruct (0 <? List.length (trim p))%nat; [discriminate|reflexivity].
  - intros [Hs Hp]. unfold resolvePrompt. rewrite Hs. cbn [whenTruthy].
    destruct Hp as [-> | [p [-> B]]]; [reflexivity|].
    apply trim_length_blank in B. now rewrite B.
Qed.

Lemma schema_missing_prompt_iff_witness :
  resolvePrompt (host := ReferenceHost.host)
    (Input.Build (Some (js "  ")) None None None None None)
  = Threw (Error MSG_MISSING_PROMPT).
Proof.
  apply (schema_missing_prompt_iff (host := ReferenceHost.host)
           (Input.Build (Some (js "  ")) None None None None None) eq_refl).
  split; [reflexivity|]. right. exists (js "  "). split; [reflexivity|].
  intros c [<-|[<-|[]]]; reflexivity.
Defined.
